(** * SwarmChemistry relay server: a shallow embedding and its properties

    The development follows the two servers of the repository:
    the Railway server with the text format (the second program of
    [src/unnamed/part_000]) in [Module Railway] and the file-backed
    [src/server-example.js] in [Module ServerExample].

    Conventions of the model.
    - A JavaScript string is the list of its UTF-16 code units ([code]).
    - Numbers are exact.  A count, a total or what [parseInt] returns is
      an integer of [Z] or NaN ([jsint]); the eight parameters of a
      population and quotients are rationals of [Q] or one of NaN,
      Infinity, -Infinity ([jsnum]).  Rounding to binary64 is not part of
      the model.
    - [Date] and [Math.random] read from an oracle kept in the [World];
      identifiers and ISO timestamps keep the values they are built from
      instead of their rendering as text.
    - A handler is a computation in a state and exception monad: what was
      written to the store before a [throw] is still there in the [catch]. *)

From Stdlib Require Import String Ascii Bool ZArith NArith QArith Qround Lia Lqa List.
From Stdlib Require Import DecimalPos DecimalN.
Import ListNotations.

Set Implicit Arguments.
Local Open Scope Z_scope.

(** ** Strings as code units *)

Definition code := N.
Definition jsstring := list code.

Definition jsstr (s : string) : jsstring :=
  List.map N_of_ascii (list_ascii_of_string s).

Definition ch_nl : code := 10%N.
Definition ch_lpar : code := 40%N.
Definition ch_rpar : code := 41%N.
Definition ch_star : code := 42%N.
Definition ch_plus : code := 43%N.
Definition ch_comma : code := 44%N.
Definition ch_minus : code := 45%N.
Definition ch_dot : code := 46%N.
Definition ch_0 : code := 48%N.

Definition is_digit (c : code) : bool := ((48 <=? c) && (c <=? 57))%N.

(** WhiteSpace and LineTerminator of ECMAScript: what [\s], [trim] and the
    prefix skipping of [parseInt] and [parseFloat] all use. *)
Definition is_space (c : code) : bool :=
  (((9 <=? c) && (c <=? 13)) || (c =? 32) || (c =? 160) || (c =? 5760)
   || ((8192 <=? c) && (c <=? 8202)) || (c =? 8232) || (c =? 8233)
   || (c =? 8239) || (c =? 8287) || (c =? 12288) || (c =? 65279))%N.

Fixpoint drop_while (A : Type) (f : A -> bool) (l : list A) : list A :=
  match l with
  | [] => []
  | x :: l' => if f x then drop_while f l' else l
  end.

Fixpoint take_while (A : Type) (f : A -> bool) (l : list A) : list A :=
  match l with
  | [] => []
  | x :: l' => if f x then x :: take_while f l' else []
  end.

Definition trimStart (s : jsstring) : jsstring := drop_while is_space s.
Definition trimEnd (s : jsstring) : jsstring := rev (drop_while is_space (rev s)).
(** [String.prototype.trim] *)
Definition trim (s : jsstring) : jsstring := trimEnd (trimStart s).

(** [s.split(sep)] for a separator of one code unit: never empty, the
    empty string gives one empty piece. *)
Fixpoint split (sep : code) (s : jsstring) : list jsstring :=
  match s with
  | [] => [[]]
  | c :: s' =>
      if (c =? sep)%N then [] :: split sep s'
      else match split sep s' with
           | l :: ls => (c :: l) :: ls
           | [] => [[c]]
           end
  end.

(** [a.join(sep)] *)
Fixpoint join (sep : jsstring) (ls : list jsstring) : jsstring :=
  match ls with
  | [] => []
  | [l] => l
  | l :: ls' => l ++ sep ++ join sep ls'
  end.

(** A string is truthy when it is not empty. *)
Definition truthy_string (s : jsstring) : bool :=
  match s with [] => false | _ => true end.

(** ** Regular expressions

    The two patterns at hand are sequences of character classes, each taken
    once or under a greedy [*] or [+], some of them capturing.  The matcher
    backtracks as the JavaScript one does: a greedy run first takes all it
    can and gives characters back while the rest fails. *)

Inductive cclass : Type :=
| CDigit                  (* \d *)
| CSpace                  (* \s *)
| CChar (c : code)        (* an escaped literal *)
| CNot (c : code).        (* [^c] *)

Definition cmem (k : cclass) (c : code) : bool :=
  match k with
  | CDigit => is_digit c
  | CSpace => is_space c
  | CChar d => (c =? d)%N
  | CNot d => negb (c =? d)%N
  end.

Inductive quant : Type := Once | Star | Plus.

Record piece : Type := Piece { p_class : cclass; p_quant : quant; p_capture : bool }.

(** Result of matching from a position: the captures in order and what is
    left of the subject after the match. *)
Definition mresult : Type := (list jsstring * jsstring)%type.

Definition add_capture (p : piece) (run : jsstring) (r : mresult) : mresult :=
  if p_capture p then (run :: fst r, snd r) else r.

Section Matcher.
(** [at_end]: the pattern ends with [$]. *)
Variable at_end : bool.

Section Greedy.
Variable k : cclass.
Variable rest : jsstring -> option mresult.

(** The longest run of [k] first, then shorter ones. *)
Fixpoint greedy (s : jsstring) : option (jsstring * mresult) :=
  let stop := match rest s with Some r => Some ([], r) | None => None end in
  match s with
  | c :: s' =>
      if cmem k c then
        match greedy s' with
        | Some (run, r) => Some (c :: run, r)
        | None => stop
        end
      else stop
  | [] => stop
  end.
End Greedy.

Fixpoint match_here (ps : list piece) : jsstring -> option mresult :=
  match ps with
  | [] => fun s =>
      if at_end then match s with [] => Some ([], []) | _ => None end
      else Some ([], s)
  | p :: ps' =>
      let rest := match_here ps' in
      let k := p_class p in
      match p_quant p with
      | Once => fun s =>
          match s with
          | c :: s' =>
              if cmem k c
              then option_map (add_capture p [c]) (rest s')
              else None
          | [] => None
          end
      | Star => fun s =>
          match greedy k rest s with
          | Some (run, r) => Some (add_capture p run r)
          | None => None
          end
      | Plus => fun s =>
          match s with
          | c :: s' =>
              if cmem k c then
                match greedy k rest s' with
                | Some (run, r) => Some (add_capture p (c :: run) r)
                | None => None
                end
              else None
          | [] => None
          end
      end
  end.

(** Leftmost match of a pattern without [^]: every start position in turn,
    the end of the subject included. *)
Fixpoint search (ps : list piece) (s : jsstring) : option mresult :=
  match match_here ps s with
  | Some r => Some r
  | None => match s with
            | [] => None
            | _ :: s' => search ps s'
            end
  end.
End Matcher.

(** [str.match(re)] for a pattern without the g flag, as far as the code
    reads it: the captures of the leftmost match, or [None] for [null]. *)
Record regex : Type :=
  Regex { re_bol : bool; re_pieces : list piece; re_eol : bool }.

Definition str_match (re : regex) (s : jsstring) : option (list jsstring) :=
  option_map fst
    (if re_bol re then match_here (re_eol re) (re_pieces re) s
     else search (re_eol re) (re_pieces re) s).

(** [/(\d+)\s*\*\s*\(([^)]+)\)/] of parseStandardFormat *)
Definition line_pattern : regex :=
  Regex false
    [ Piece CDigit Plus true;
      Piece CSpace Star false;
      Piece (CChar ch_star) Once false;
      Piece CSpace Star false;
      Piece (CChar ch_lpar) Once false;
      Piece (CNot ch_rpar) Plus true;
      Piece (CChar ch_rpar) Once false ]
    false.


(** ** Numbers and their text *)

(** Digits to and from the decimal numerals of the standard library, whose
    conversions to [N] are the mathematical value of a numeral. *)
Definition digit_code (d : N) : code := (48 + d)%N.

Fixpoint codes_of_uint (u : Decimal.uint) : jsstring :=
  match u with
  | Decimal.Nil => []
  | Decimal.D0 u' => digit_code 0 :: codes_of_uint u'
  | Decimal.D1 u' => digit_code 1 :: codes_of_uint u'
  | Decimal.D2 u' => digit_code 2 :: codes_of_uint u'
  | Decimal.D3 u' => digit_code 3 :: codes_of_uint u'
  | Decimal.D4 u' => digit_code 4 :: codes_of_uint u'
  | Decimal.D5 u' => digit_code 5 :: codes_of_uint u'
  | Decimal.D6 u' => digit_code 6 :: codes_of_uint u'
  | Decimal.D7 u' => digit_code 7 :: codes_of_uint u'
  | Decimal.D8 u' => digit_code 8 :: codes_of_uint u'
  | Decimal.D9 u' => digit_code 9 :: codes_of_uint u'
  end.

(** The decimal digits at the head of a string, as a numeral. *)
Fixpoint uint_of_codes (s : jsstring) : Decimal.uint :=
  match s with
  | [] => Decimal.Nil
  | c :: s' =>
      let u := uint_of_codes s' in
      match c with
      | 48%N => Decimal.D0 u
      | 49%N => Decimal.D1 u
      | 50%N => Decimal.D2 u
      | 51%N => Decimal.D3 u
      | 52%N => Decimal.D4 u
      | 53%N => Decimal.D5 u
      | 54%N => Decimal.D6 u
      | 55%N => Decimal.D7 u
      | 56%N => Decimal.D8 u
      | 57%N => Decimal.D9 u
      | _ => Decimal.Nil
      end
  end.

(** Hexadecimal digits at the head of a string, for [parseInt] after 0x. *)
Fixpoint hex_of_codes (s : jsstring) : Hexadecimal.uint :=
  match s with
  | [] => Hexadecimal.Nil
  | c :: s' =>
      let u := hex_of_codes s' in
      match c with
      | 48%N => Hexadecimal.D0 u
      | 49%N => Hexadecimal.D1 u
      | 50%N => Hexadecimal.D2 u
      | 51%N => Hexadecimal.D3 u
      | 52%N => Hexadecimal.D4 u
      | 53%N => Hexadecimal.D5 u
      | 54%N => Hexadecimal.D6 u
      | 55%N => Hexadecimal.D7 u
      | 56%N => Hexadecimal.D8 u
      | 57%N => Hexadecimal.D9 u
      | 65%N | 97%N => Hexadecimal.Da u
      | 66%N | 98%N => Hexadecimal.Db u
      | 67%N | 99%N => Hexadecimal.Dc u
      | 68%N | 100%N => Hexadecimal.Dd u
      | 69%N | 101%N => Hexadecimal.De u
      | 70%N | 102%N => Hexadecimal.Df u
      | _ => Hexadecimal.Nil
      end
  end.

Definition dec_value (s : jsstring) : Z := Z.of_N (N.of_uint (uint_of_codes s)).
Definition hex_value (s : jsstring) : Z := Z.of_N (N.of_hex_uint (hex_of_codes s)).

(** Number to string for an integer: [`${n}`]. *)
Definition dec_digits (n : Z) : jsstring := codes_of_uint (N.to_uint (Z.to_N n)).
Definition int_to_string (n : Z) : jsstring :=
  if n <? 0 then ch_minus :: dec_digits (- n) else dec_digits n.

Definition read_sign (s : jsstring) : bool * jsstring :=
  match s with
  | c :: s' =>
      if (c =? ch_minus)%N then (true, s')
      else if (c =? ch_plus)%N then (false, s')
      else (false, s)
  | [] => (false, [])
  end.

Definition apply_sign (neg : bool) (v : Z) : Z := if neg then - v else v.

Definition is_x (c : code) : bool := ((c =? 120) || (c =? 88))%N.

(** A number that is an integer, or NaN: counts, totals and what
    [parseInt] returns. *)
Inductive jsint : Type :=
| Int (z : Z)
| NaNi.

(** [parseInt(s)] without a radix. *)
Definition parseInt (s : jsstring) : jsint :=
  let (neg, s1) := read_sign (trimStart s) in
  match s1 with
  | z :: x :: s2 =>
      if ((z =? ch_0)%N && is_x x)%bool then
        match hex_of_codes s2 with
        | Hexadecimal.Nil => NaNi
        | _ => Int (apply_sign neg (hex_value s2))
        end
      else
        match uint_of_codes s1 with
        | Decimal.Nil => NaNi
        | _ => Int (apply_sign neg (dec_value s1))
        end
  | _ =>
      match uint_of_codes s1 with
      | Decimal.Nil => NaNi
      | _ => Int (apply_sign neg (dec_value s1))
      end
  end.

Inductive jsnum : Type :=
| NaN
| PosInf
| NegInf
| Fin (q : Q).

Fixpoint starts_with (pre s : jsstring) : bool :=
  match pre, s with
  | [], _ => true
  | a :: pre', b :: s' => ((a =? b)%N && starts_with pre' s')%bool
  | _ :: _, [] => false
  end.

Definition is_e (c : code) : bool := ((c =? 101) || (c =? 69))%N.

(** The exponent part at the head of [s], 0 when there is none. *)
Definition read_exponent (s : jsstring) : Z :=
  match s with
  | c :: s' =>
      if is_e c then
        let (neg, s2) := read_sign s' in
        match take_while is_digit s2 with
        | [] => 0
        | ds => apply_sign neg (dec_value ds)
        end
      else 0
  | [] => 0
  end.

Definition Qpow10 (e : Z) : Q := Qpower (10 # 1) e.

(** [parseFloat(s)]: the longest prefix that is a decimal literal. *)
Definition parseFloat (s : jsstring) : jsnum :=
  let (neg, s1) := read_sign (trimStart s) in
  if starts_with (jsstr "Infinity") s1 then (if neg then NegInf else PosInf)
  else
    let ip := take_while is_digit s1 in
    let r1 := drop_while is_digit s1 in
    let (fp, r2) :=
      match r1 with
      | c :: r =>
          if (c =? ch_dot)%N
          then (take_while is_digit r, drop_while is_digit r)
          else ([], r1)
      | [] => ([], [])
      end in
    match ip ++ fp with
    | [] => NaN
    | ds =>
        Fin (inject_Z (apply_sign neg (dec_value ds))
             * Qpow10 (read_exponent r2 - Z.of_nat (length fp)))
    end.

(** [Math.round]: the nearest integer, a half going up. *)
Definition Math_round (q : Q) : Z := Qfloor (q + (1 # 2)).
Definition Math_floor (q : Q) : Z := Qfloor q.

(** [x.toFixed(2)] of a non-negative integer count of hundredths. *)
Definition fixed2_digits (n : Z) : jsstring :=
  let m := dec_digits n in
  let k := length m in
  let m' := if (k <=? 2)%nat then repeat ch_0 (3 - k) ++ m else m in
  let k' := length m' in
  firstn (k' - 2) m' ++ ch_dot :: skipn (k' - 2) m'.

(** [x.toFixed(2)].  The sign is taken off first and the hundredths are
    rounded with a half going away from zero.  (From 1e21 on JavaScript
    prints the exponent form of the binary64 value; the model has exact
    values and keeps the fixed notation.) *)
Definition toFixed2 (x : jsnum) : jsstring :=
  match x with
  | NaN => jsstr "NaN"
  | PosInf => jsstr "Infinity"
  | NegInf => jsstr "-Infinity"
  | Fin q =>
      if Qlt_le_dec q 0
      then ch_minus :: fixed2_digits (Qfloor ((- q) * (100 # 1) + (1 # 2)))
      else fixed2_digits (Qfloor (q * (100 # 1) + (1 # 2)))
  end.



(** [a + b] on such numbers. *)
Definition js_add (a b : jsint) : jsint :=
  match a, b with
  | Int x, Int y => Int (x + y)
  | _, _ => NaNi
  end.

(** [a / n] for an array length [n]: a zero divisor gives NaN or an
    infinity, as in JavaScript. *)
Definition js_div (a : jsint) (n : Z) : jsnum :=
  match a with
  | NaNi => NaN
  | Int x =>
      if n =? 0 then
        (if x =? 0 then NaN else if x <? 0 then NegInf else PosInf)
      else Fin (inject_Z x / inject_Z n)
  end.

(** [Math.round] on a number that may be NaN or infinite. *)
Definition Math_round_num (x : jsnum) : jsnum :=
  match x with
  | Fin q => Fin (inject_Z (Math_round q))
  | other => other
  end.

(** [`${n}`] *)
Definition jsint_to_string (n : jsint) : jsstring :=
  match n with
  | Int z => int_to_string z
  | NaNi => jsstr "NaN"
  end.

(** ** The data model *)

Record Parameters : Type := {
  neighborhoodRadius : jsnum;
  normalSpeed : jsnum;
  maxSpeed : jsnum;
  c1 : jsnum;
  c2 : jsnum;
  c3 : jsnum;
  c4 : jsnum;
  c5 : jsnum;
  color : jsstring
}.

Record Population : Type := {
  count : jsint;
  parameters : Parameters
}.

(** A session identifier is what the client sent or what the text parser
    builds from [Date.now()] and [Math.random()]. *)
Inductive SessionId : Type :=
| ClientSession (s : jsstring)
| StandardSession (now : Z) (r : Q).

(** [Date.now() + '_' + Math.random().toString(36).substr(2, 9)] *)
Record DataId : Type := { id_now : Z; id_random : Q }.

(** One submission.  [None] is a property the object does not have.  The
    JSON body of a request is read at this type: [populations] and
    [userAgent] may be missing, the numbers are what the client sent. *)
Record SwarmData : Type := {
  sessionId : SessionId;
  timestamp : Z;
  populations : option (list Population);
  totalIndividuals : jsint;
  userAgent : option jsstring;
  format : option jsstring;
  serverTimestamp : option Z;
  id : option DataId
}.

(** The two assignments of the POST handler. *)
Definition set_serverTimestamp (t : Z) (d : SwarmData) : SwarmData :=
  {| sessionId := sessionId d; timestamp := timestamp d;
     populations := populations d; totalIndividuals := totalIndividuals d;
     userAgent := userAgent d; format := format d;
     serverTimestamp := Some t; id := id d |}.

Definition set_id (i : DataId) (d : SwarmData) : SwarmData :=
  {| sessionId := sessionId d; timestamp := timestamp d;
     populations := populations d; totalIndividuals := totalIndividuals d;
     userAgent := userAgent d; format := format d;
     serverTimestamp := serverTimestamp d; id := Some i |}.

(** ** The world and the monad of handlers *)

Record World : Type := {
  swarmDataStore : list SwarmData;
  random_source : nat -> N;     (* the draws of Math.random, in 2^-53 *)
  random_calls : nat;
  clock_source : nat -> Z;      (* the readings of the clock, in ms *)
  clock_calls : nat
}.

Definition set_store (l : list SwarmData) (w : World) : World :=
  {| swarmDataStore := l;
     random_source := random_source w; random_calls := random_calls w;
     clock_source := clock_source w; clock_calls := clock_calls w |}.

Inductive Error : Type :=
| TypeError (message : string).

Inductive Outcome (A : Type) : Type :=
| Return (a : A)
| Throw (e : Error).
Arguments Throw {A} e.

Definition M (A : Type) : Type := World -> Outcome A * World.

Definition ret {A} (a : A) : M A := fun w => (Return a, w).
Definition throw {A} (e : Error) : M A := fun w => (Throw e, w).
Definition bind {A B} (c : M A) (k : A -> M B) : M B :=
  fun w => match c w with
           | (Return a, w') => k a w'
           | (Throw e, w') => (Throw e, w')
           end.
(** [try { c } catch (error) { h error }]: the handler runs in the world
    the body left behind. *)
Definition try_catch {A} (c : M A) (h : Error -> M A) : M A :=
  fun w => match c w with
           | (Return a, w') => (Return a, w')
           | (Throw e, w') => h e w'
           end.

Declare Scope js_scope.
Delimit Scope js_scope with js.
Notation "x <- c ;; k" := (bind c (fun x => k))
  (at level 61, c at next level, right associativity) : js_scope.
Notation "c ;;; k" := (bind c (fun _ => k))
  (at level 61, right associativity) : js_scope.
Local Open Scope js_scope.

Definition get_store : M (list SwarmData) := fun w => (Return (swarmDataStore w), w).
Definition put_store (l : list SwarmData) : M unit := fun w => (Return tt, set_store l w).

Definition two53 : Z := 2 ^ 53.

(** [Math.random()]: the next draw, in [0, 1). *)
Definition Math_random : M Q :=
  fun w =>
    (Return (Z.of_N (random_source w (random_calls w)) mod two53 # Z.to_pos two53),
     {| swarmDataStore := swarmDataStore w;
        random_source := random_source w; random_calls := S (random_calls w);
        clock_source := clock_source w; clock_calls := clock_calls w |}).

(** [Date.now()], and the instant of [new Date()]. *)
Definition Date_now : M Z :=
  fun w =>
    (Return (clock_source w (clock_calls w)),
     {| swarmDataStore := swarmDataStore w;
        random_source := random_source w; random_calls := random_calls w;
        clock_source := clock_source w; clock_calls := S (clock_calls w) |}).

(** [xs.forEach(x => body)] where the body updates local variables [acc]. *)
Fixpoint forEach {A S : Type} (xs : list A) (body : A -> S -> M S) (acc : S) : M S :=
  match xs with
  | [] => ret acc
  | x :: xs' => acc' <- body x acc ;; forEach xs' body acc'
  end.

(** [a.slice(start, end)]: a negative index counts from the end. *)
Definition slice_index (len i : Z) : Z :=
  if i <? 0 then Z.max (len + i) 0 else Z.min i len.

Definition Array_slice {A : Type} (start end_ : Z) (a : list A) : list A :=
  let len := Z.of_nat (length a) in
  let k := slice_index len start in
  let final := slice_index len end_ in
  firstn (Z.to_nat (final - k)) (skipn (Z.to_nat k) a).

(** [x || d] on numbers: 0 and NaN are falsy. *)
Definition or_default (x : jsint) (d : Z) : Z :=
  match x with
  | Int 0 => d
  | Int z => z
  | NaNi => d
  end.

(** [String(v)] of a query parameter that may be missing. *)
Definition query_to_string (v : option jsstring) : jsstring :=
  match v with
  | Some s => s
  | None => jsstr "undefined"
  end.

(** [d.populations.length] and [d.populations.map]: reading a property of
    [undefined] throws. *)
Definition populations_of (d : SwarmData) : M (list Population) :=
  match populations d with
  | Some ps => ret ps
  | None => throw (TypeError "Cannot read properties of undefined")
  end.

(** [d.userAgent.includes('Mobile')] is evaluated for the log only; it
    throws when the payload has no [userAgent]. *)
Definition includes_of (v : option jsstring) : M unit :=
  match v with
  | Some _ => ret tt
  | None => throw (TypeError "Cannot read properties of undefined")
  end.

(** What the handlers send. *)
Record PostSuccess : Type := {
  dataId : option DataId;
  post_timestamp : option Z;
  storedCount : nat
}.

Inductive PostResponse : Type :=
| PostOk (r : PostSuccess)              (* 200 { success: true, ... } *)
| PostFailed (message : string).        (* 500 { success: false, message } *)

Definition post_success (r : PostResponse) : bool :=
  match r with PostOk _ => true | PostFailed _ => false end.

Record UnityPopulation : Type := {
  u_count : jsint;
  u_neighborhoodRadius : jsnum;
  u_normalSpeed : jsnum;
  u_maxSpeed : jsnum;
  cohesion : jsnum;
  alignment : jsnum;
  separation : jsnum;
  randomness : jsnum;
  speedControl : jsnum;
  u_color : jsstring
}.

Record UnityData : Type := {
  u_timestamp : option Z;
  u_sessionId : SessionId;
  totalParticles : jsint;
  u_populations : list UnityPopulation
}.

Inductive LatestResponse : Type :=
| NoData                                (* 200 { success: false, message, data: null } *)
| Latest (u : UnityData)                (* 200 { success: true, ... } *)
| LatestFailed (message : string).      (* 500 { success: false, message } *)

Record HistoryResponse : Type := {
  h_count : nat;
  h_total : nat;
  h_data : list SwarmData
}.

(** The statistics of the submissions.  Left out: [uniqueSessions], which
    compares session identifiers as strings, and the server information. *)
Record DataStats : Type := {
  totalSubmissions : nat;
  latestSubmission : option Z;
  stats_totalParticles : jsint;
  averageParticles : jsnum
}.

Definition error_message (e : Error) : string :=
  match e with TypeError m => m end.

(** The projection of the latest handler. *)
Definition unity_population (pop : Population) : UnityPopulation :=
  {| u_count := count pop;
     u_neighborhoodRadius := neighborhoodRadius (parameters pop);
     u_normalSpeed := normalSpeed (parameters pop);
     u_maxSpeed := maxSpeed (parameters pop);
     cohesion := c1 (parameters pop);
     alignment := c2 (parameters pop);
     separation := c3 (parameters pop);
     randomness := c4 (parameters pop);
     speedControl := c5 (parameters pop);
     u_color := color (parameters pop) |}.

(** [store.reduce((sum, d) => sum + d.totalIndividuals, 0)] *)
Definition reduce_total (store : list SwarmData) : jsint :=
  fold_left (fun sum d => js_add sum (totalIndividuals d)) store (Int 0).

(** The [dataStats] object of the stats handlers, the same in both servers. *)
Definition data_stats (store : list SwarmData) : DataStats :=
  {| totalSubmissions := length store;
     latestSubmission :=
       match store with
       | d :: _ => serverTimestamp d
       | [] => None
       end;
     stats_totalParticles := reduce_total store;
     averageParticles :=
       if (0 <? length store)%nat
       then Math_round_num (js_div (reduce_total store) (Z.of_nat (length store)))
       else Fin 0 |}.

(** The latest handler, the same in both servers. *)
Definition latest_handler : M LatestResponse :=
  try_catch
    (store <- get_store ;;
     match store with
     | [] => ret NoData
     | latestData :: _ =>
         pops <- populations_of latestData ;;
         ret (Latest {| u_timestamp := serverTimestamp latestData;
                        u_sessionId := sessionId latestData;
                        totalParticles := totalIndividuals latestData;
                        u_populations := List.map unity_population pops |})
     end)
    (fun error => ret (LatestFailed (error_message error))).

(** [match[i]] for a capture group [i >= 1]. *)
Definition group (m : list jsstring) (i : nat) : jsstring := nth (i - 1) m [].

(** [params[i]] *)
Definition param (params : list jsnum) (i : nat) : jsnum := nth i params NaN.

(** ** The Railway server with the text format *)

Module Railway.

Definition MAX_STORED_DATA : nat := 50.

Inductive Body : Type :=
| TextBody (s : jsstring)       (* typeof req.body === 'string' *)
| JsonBody (d : SwarmData).

Definition generateRandomColor : M jsstring :=
  r1 <- Math_random ;;
  let hue := Math_floor (r1 * (360 # 1)) in
  r2 <- Math_random ;;
  let saturation := Math_floor (r2 * (40 # 1)) + 60 in
  r3 <- Math_random ;;
  let lightness := Math_floor (r3 * (30 # 1)) + 50 in
  ret (jsstr "hsl(" ++ int_to_string hue ++ jsstr ", "
       ++ int_to_string saturation ++ jsstr "%, "
       ++ int_to_string lightness ++ jsstr "%)").

(** The lines the parser walks over. *)
Definition payload_lines (textData : jsstring) : list jsstring :=
  filter (fun line => truthy_string (trim line)) (split ch_nl (trim textData)).

(** The body of the [forEach]; [acc] holds the local variables
    [populations] and [totalIndividuals]. *)
Definition parse_line (line : jsstring) (acc : list Population * jsint)
  : M (list Population * jsint) :=
  match str_match line_pattern line with
  | Some m =>
      let count := parseInt (group m 1) in
      let params :=
        List.map (fun p => parseFloat (trim p)) (split ch_comma (group m 2)) in
      if (length params =? 8)%nat then
        col <- generateRandomColor ;;
        ret (fst acc ++
             [ {| count := count;
                  parameters :=
                    {| neighborhoodRadius := param params 0;
                       normalSpeed := param params 1;
                       maxSpeed := param params 2;
                       c1 := param params 3;
                       c2 := param params 4;
                       c3 := param params 5;
                       c4 := param params 6;
                       c5 := param params 7;
                       color := col |} |} ],
             js_add (snd acc) count)
      else ret acc
  | None => ret acc
  end.

Definition parseStandardFormat (textData : jsstring) : M SwarmData :=
  acc <- forEach (payload_lines textData) parse_line ([], Int 0) ;;
  now <- Date_now ;;
  r <- Math_random ;;
  t <- Date_now ;;
  ret {| sessionId := StandardSession now r;
         timestamp := t;
         populations := Some (fst acc);
         totalIndividuals := snd acc;
         userAgent := Some (jsstr "Standard Format Parser");
         format := Some (jsstr "standard");
         serverTimestamp := None;
         id := None |}.

Definition population_line (pop : Population) : jsstring :=
  let params := parameters pop in
  jsint_to_string (count pop) ++ jsstr " * ("
  ++ toFixed2 (neighborhoodRadius params) ++ jsstr ", "
  ++ toFixed2 (normalSpeed params) ++ jsstr ", "
  ++ toFixed2 (maxSpeed params) ++ jsstr ", "
  ++ toFixed2 (c1 params) ++ jsstr ", "
  ++ toFixed2 (c2 params) ++ jsstr ", "
  ++ toFixed2 (c3 params) ++ jsstr ", "
  ++ toFixed2 (c4 params) ++ jsstr ", "
  ++ toFixed2 (c5 params) ++ jsstr ")".

Definition convertToStandardFormat (data : SwarmData) : jsstring :=
  match populations data with
  | None => []
  | Some pops => join [ch_nl] (List.map population_line pops)
  end.

(** POST /api/swarm-data.  The log lines are kept where evaluating them
    can throw. *)
Definition post_handler (body : Body) : M PostResponse :=
  try_catch
    (swarmData <- match body with
                  | TextBody s => parseStandardFormat s
                  | JsonBody d => ret d
                  end ;;
     t <- Date_now ;;
     let swarmData := set_serverTimestamp t swarmData in
     now <- Date_now ;;
     r <- Math_random ;;
     let swarmData := set_id {| id_now := now; id_random := r |} swarmData in
     store <- get_store ;;
     put_store (swarmData :: store) ;;;
     store <- get_store ;;
     (if (MAX_STORED_DATA <? length store)%nat
      then put_store (Array_slice 0 (Z.of_nat MAX_STORED_DATA) store)
      else ret tt) ;;;
     _ <- populations_of swarmData ;;
     store <- get_store ;;
     ret (PostOk {| dataId := id swarmData;
                    post_timestamp := serverTimestamp swarmData;
                    storedCount := length store |}))
    (fun error => ret (PostFailed (error_message error))).

Definition latest_handler : M LatestResponse := latest_handler.




(** GET /api/swarm-data/history *)
Definition history_handler (query_limit : option jsstring) : M HistoryResponse :=
  let limit := or_default (parseInt (query_to_string query_limit)) 10 in
  store <- get_store ;;
  let history := Array_slice 0 (Z.min limit (Z.of_nat (length store))) store in
  ret {| h_count := length history;
         h_total := length store;
         h_data := history |}.

(** GET /api/stats *)
Definition stats_handler : M DataStats :=
  store <- get_store ;;
  ret (data_stats store).

End Railway.

(** ** The file-backed example server *)

Module ServerExample.

Definition MAX_STORED_DATA : nat := 100.

(** [getClientInfo(req)] reads [req.headers['user-agent'].includes]. *)
Definition getClientInfo (user_agent_header : option jsstring) : M unit :=
  includes_of user_agent_header.

(** POST /api/swarm-data.  [saveDataToFile] catches its own errors and
    leaves the store alone. *)
Definition post_handler (user_agent_header : option jsstring) (body : SwarmData)
  : M PostResponse :=
  try_catch
    (let swarmData := body in
     t <- Date_now ;;
     let swarmData := set_serverTimestamp t swarmData in
     now <- Date_now ;;
     r <- Math_random ;;
     let swarmData := set_id {| id_now := now; id_random := r |} swarmData in
     store <- get_store ;;
     put_store (swarmData :: store) ;;;
     store <- get_store ;;
     (if (MAX_STORED_DATA <? length store)%nat
      then put_store (Array_slice 0 (Z.of_nat MAX_STORED_DATA) store)
      else ret tt) ;;;
     getClientInfo user_agent_header ;;;
     _ <- populations_of swarmData ;;
     includes_of (userAgent swarmData) ;;;
     store <- get_store ;;
     ret (PostOk {| dataId := id swarmData;
                    post_timestamp := serverTimestamp swarmData;
                    storedCount := length store |}))
    (fun error => ret (PostFailed (error_message error))).

Definition latest_handler : M LatestResponse := latest_handler.

(** GET /api/swarm-data/history *)
Definition history_handler (query_limit : option jsstring) : M HistoryResponse :=
  let limit := or_default (parseInt (query_to_string query_limit)) 10 in
  store <- get_store ;;
  let history := Array_slice 0 limit store in
  ret {| h_count := length history;
         h_total := length store;
         h_data := history |}.

(** GET /api/stats *)
Definition stats_handler : M DataStats :=
  store <- get_store ;;
  ret (data_stats store).

End ServerExample.

(** A world to run examples in: draws [r k], a clock that ticks. *)
Definition world0 (store : list SwarmData) : World :=
  {| swarmDataStore := store;
     random_source := fun k => N.of_nat k;
     random_calls := 0;
     clock_source := fun k => Z.of_nat k;
     clock_calls := 0 |}.

(** * Specifications

    What the properties are stated with: the pattern read without
    backtracking, the shape of a matching line, the grammar of the
    specification, and the predicates on records, stores and runs. *)

Unset Implicit Arguments.

(** What follows a maximal run does not belong to it. *)
Definition stops {A : Type} (f : A -> bool) (l : list A) : Prop :=
  match l with
  | [] => True
  | x :: _ => f x = false
  end.

(** A computation that returns, leaves the store alone and whose result
    satisfies [P]. *)
Definition returns {A} (c : M A) (P : A -> Prop) : Prop :=
  forall w, exists a w',
    c w = (Return a, w') /\ swarmDataStore w' = swarmDataStore w /\ P a.

Definition unit_interval (q : Q) : Prop := (0 <= q /\ q < 1)%Q.

(** The rest [ps] of the pattern cannot start with a character of [k]. *)
Definition cannot_follow (at_end : bool) (k : cclass) (ps : list piece) : Prop :=
  forall c s', cmem k c = true -> match_here at_end ps (c :: s') = None.

Definition expect (c : code) (s : jsstring) : option jsstring :=
  match s with
  | x :: s' => if (x =? c)%N then Some s' else None
  | [] => None
  end.

Definition not_rpar (c : code) : bool := negb (c =? ch_rpar)%N.

(** The line pattern read from left to right without backtracking: the
    digits, the group and what follows the closing parenthesis. *)
Definition line_match (s : jsstring) : option (jsstring * jsstring * jsstring) :=
  match take_while is_digit s with
  | [] => None
  | ds =>
      match expect ch_star (drop_while is_space (drop_while is_digit s)) with
      | None => None
      | Some s2 =>
          match expect ch_lpar (drop_while is_space s2) with
          | None => None
          | Some s4 =>
              match take_while not_rpar s4 with
              | [] => None
              | g =>
                  match expect ch_rpar (drop_while not_rpar s4) with
                  | None => None
                  | Some rest => Some (ds, g, rest)
                  end
              end
          end
      end
  end.

Definition captures_of (r : jsstring * jsstring * jsstring) : mresult :=
  let '(ds, g, rest) := r in ([ds; g], rest).

(** A match of the line pattern at the start of [s], spelled out. *)
Definition line_shape (s ds g rest : jsstring) : Prop :=
  exists w1 w2,
    s = ds ++ w1 ++ ch_star :: w2 ++ ch_lpar :: g ++ ch_rpar :: rest
    /\ ds <> [] /\ forallb is_digit ds = true
    /\ forallb is_space w1 = true /\ forallb is_space w2 = true
    /\ g <> [] /\ forallb not_rpar g = true.

(** The leftmost match, without backtracking. *)
Fixpoint line_search (s : jsstring) : option (jsstring * jsstring * jsstring) :=
  match line_match s with
  | Some r => Some r
  | None => match s with
            | [] => None
            | _ :: s' => line_search s'
            end
  end.

(** [line] has a match of the line pattern that starts after [pre], and
    none that starts earlier. *)
Definition leftmost_match (line pre ds g rest : jsstring) : Prop :=
  (exists s, line = pre ++ s /\ line_shape s ds g rest)
  /\ forall pre' s' ds' g' rest',
       line = pre' ++ s' -> (length pre' < length pre)%nat ->
       ~ line_shape s' ds' g' rest'.

Definition no_match (line : jsstring) : Prop :=
  forall pre s ds g rest, line = pre ++ s -> ~ line_shape s ds g rest.

Definition hsl_color (col : jsstring) : Prop :=
  exists h s l,
    col = jsstr "hsl(" ++ int_to_string h ++ jsstr ", "
          ++ int_to_string s ++ jsstr "%, " ++ int_to_string l ++ jsstr "%)"
    /\ 0 <= h < 360 /\ 60 <= s <= 100 /\ 50 <= l <= 80.

(** [sum(population.count for population in populations)] *)
Definition sum_counts (pops : list Population) : jsint :=
  fold_right (fun pop s => js_add (count pop) s) (Int 0) pops.


(** The count and the eight parameters of a population, in field order. *)
Definition fields_of (pop : Population) : jsint * list jsnum :=
  (count pop,
   [ neighborhoodRadius (parameters pop); normalSpeed (parameters pop);
     maxSpeed (parameters pop); c1 (parameters pop); c2 (parameters pop);
     c3 (parameters pop); c4 (parameters pop); c5 (parameters pop) ]).

Definition tokens_of (g : jsstring) : list jsnum :=
  List.map (fun p => parseFloat (trim p)) (split ch_comma g).

(** What a line gives: the count and parameters of the population pushed
    for it, or nothing. *)
Definition line_fields (line : jsstring) : option (jsint * list jsnum) :=
  match line_search line with
  | Some (ds, g, _) =>
      if (length (tokens_of g) =? 8)%nat
      then Some (parseInt ds, tokens_of g)
      else None
  | None => None
  end.

Definition option_list {A} (o : option A) : list A :=
  match o with Some a => [a] | None => [] end.

(** One turn of the loop: the line pushes the population [line_fields]
    tells, with a fresh color, or leaves the variables as they are. *)
Definition line_step (line : jsstring) (acc acc' : list Population * jsint) : Prop :=
  match line_fields line with
  | Some (c, vs) =>
      exists pop,
        fields_of pop = (c, vs) /\ hsl_color (color (parameters pop))
        /\ acc' = (fst acc ++ [pop], js_add (snd acc) c)
  | None => acc' = acc
  end.

(** The loop over a list of lines. *)
Inductive lines_steps : list jsstring -> list Population * jsint -> list Population * jsint -> Prop :=
| steps_nil acc : lines_steps [] acc acc
| steps_cons line lines acc acc1 acc2 :
    line_step line acc acc1 -> lines_steps lines acc1 acc2 ->
    lines_steps (line :: lines) acc acc2.

Definition count_ok (pop : Population) : Prop :=
  exists n, count pop = Int n /\ 0 <= n.

Definition population_ok (pop : Population) : Prop :=
  count_ok pop /\ hsl_color (color (parameters pop)).

(** The result of the parser, as a whole. *)
Definition parsed (textData : jsstring) (d : SwarmData) : Prop :=
  exists pops,
    populations d = Some pops
    /\ Forall population_ok pops
    /\ totalIndividuals d = sum_counts pops
    /\ List.map fields_of pops
       = flat_map (fun l => option_list (line_fields l)) (Railway.payload_lines textData)
    /\ userAgent d = Some (jsstr "Standard Format Parser")
    /\ serverTimestamp d = None /\ id d = None.

(** The record a POST handler builds from a payload. *)
Definition stamped (d rec : SwarmData) : Prop :=
  exists t i, rec = set_id i (set_serverTimestamp t d).

Definition payload_of (body : Railway.Body) (d : SwarmData) : Prop :=
  match body with
  | Railway.JsonBody d0 => d = d0
  | Railway.TextBody s => parsed s d
  end.

(** The response to a record that was put in the store. *)
Definition post_response (ok : bool) (rec : SwarmData) (store : list SwarmData)
    (resp : PostResponse) : Prop :=
  if ok
  then resp = PostOk {| dataId := id rec;
                        post_timestamp := serverTimestamp rec;
                        storedCount := length store |}
  else exists message, resp = PostFailed message.

Definition has_populations (d : SwarmData) : bool :=
  match populations d with Some _ => true | None => false end.

Definition has_userAgent (d : SwarmData) : bool :=
  match userAgent d with Some _ => true | None => false end.

(** A run of submissions, one after the other. *)
Fixpoint post_each {B : Type} (post : B -> M PostResponse) (bodies : list B)
  : M (list PostResponse) :=
  match bodies with
  | [] => ret []
  | b :: bodies' =>
      resp <- post b ;;
      resps <- post_each post bodies' ;;
      ret (resp :: resps)
  end.

(** [post] puts a record [built] from the body at the front and cuts the
    store to [cap]. *)
Definition inserts {B : Type} (post : B -> M PostResponse) (cap : nat)
    (built : B -> SwarmData -> PostResponse -> Prop) (b : B) : Prop :=
  forall w, exists resp rec w',
    post b w = (Return resp, w')
    /\ built b rec resp
    /\ swarmDataStore w' = firstn cap (rec :: swarmDataStore w).

Definition answers (rec : SwarmData) (resp : PostResponse) : Prop :=
  match resp with
  | PostOk r => dataId r = id rec /\ post_timestamp r = serverTimestamp rec
  | PostFailed _ => True
  end.

(** The record and the response of the Railway handler for a body. *)
Definition railway_built (b : Railway.Body) (rec : SwarmData) (resp : PostResponse) : Prop :=
  exists d,
    payload_of b d /\ stamped d rec
    /\ post_success resp = has_populations d /\ answers rec resp.

(** The same for the example server; a request is its User-Agent header
    and its JSON body. *)
Definition example_post (req : option jsstring * SwarmData) : M PostResponse :=
  ServerExample.post_handler (fst req) (snd req).

Definition example_built (req : option jsstring * SwarmData) (rec : SwarmData)
    (resp : PostResponse) : Prop :=
  stamped (snd req) rec /\ answers rec resp.

(** The store after the records [recs] were put in, in this order. *)
Definition window (cap : nat) (recs store : list SwarmData) : Prop :=
  length store = Nat.min (length recs) cap
  /\ store = firstn (Nat.min (length recs) cap) (rev recs)
  /\ forall recs0 rec, recs = recs0 ++ [rec] -> nth_error store 0 = Some rec.


Definition sample_parameters : Parameters :=
  {| neighborhoodRadius := Fin (10 # 1); normalSpeed := Fin (1 # 1);
     maxSpeed := Fin (2 # 1); c1 := Fin (1 # 2); c2 := Fin (1 # 2);
     c3 := Fin (1 # 2); c4 := Fin (1 # 10); c5 := Fin (9 # 10);
     color := jsstr "hsl(120, 70%, 60%)" |}.

(** A JSON body whose total does not match its populations. *)
Definition inconsistent_payload : SwarmData :=
  {| sessionId := ClientSession (jsstr "session_1");
     timestamp := 1700000000000;
     populations := Some [ {| count := Int 1; parameters := sample_parameters |} ];
     totalIndividuals := Int 5;
     userAgent := Some (jsstr "Mozilla/5.0");
     format := None;
     serverTimestamp := None;
     id := None |}.


Definition payload_without_populations : SwarmData :=
  {| sessionId := ClientSession (jsstr "session_1");
     timestamp := 1700000000000;
     populations := None;
     totalIndividuals := Int 0;
     userAgent := Some (jsstr "Mozilla/5.0");
     format := None;
     serverTimestamp := None;
     id := None |}.

(** The pattern of the specification,
    [^\s*(\d+)\s*\*\s*\(([^)]+)\)\s*$]: the pattern of the code between
    [^\s*] and [\s*$]. *)
Definition spec_pattern : regex :=
  Regex true
    (Piece CSpace Star false :: re_pieces line_pattern ++ [Piece CSpace Star false])
    true.

Definition is_numeric (x : jsnum) : bool :=
  match x with NaN => false | _ => true end.

(** A line as the specification reads it: it conforms when it matches
    the anchored pattern and its group splits on commas into exactly 8
    numeric tokens, and then denotes a count and eight values. *)
Definition spec_line_fields (line : jsstring) : option (jsint * list jsnum) :=
  match str_match spec_pattern line with
  | Some m =>
      let vs := tokens_of (group m 2) in
      if ((length vs =? 8)%nat && forallb is_numeric vs)%bool
      then Some (parseInt (group m 1), vs)
      else None
  | None => None
  end.
















(** ** Submissions, step by step *)

(** The draw number [k] of a world, and the next value of
    [Math.random()]. *)
Definition draw (w : World) (k : nat) : Q :=
  Z.of_N (random_source w k) mod two53 # Z.to_pos two53.

Definition next_draw (w : World) : Q := draw w (random_calls w).

(** The record a POST handler makes of the payload [d] in the world [w]:
    the clock is read twice and one number is drawn. *)
Definition stamp_in (w : World) (d : SwarmData) : SwarmData :=
  set_id {| id_now := clock_source w (S (clock_calls w)); id_random := next_draw w |}
    (set_serverTimestamp (clock_source w (clock_calls w)) d).

(** The world after that record was put in a store of capacity [cap]. *)
Definition posted (cap : nat) (w : World) (d : SwarmData) : World :=
  {| swarmDataStore := firstn cap (stamp_in w d :: swarmDataStore w);
     random_source := random_source w; random_calls := S (random_calls w);
     clock_source := clock_source w; clock_calls := S (S (clock_calls w)) |}.

(** A later world of the same run: the same clock and the same draws, the
    same store, and no reading taken back. *)
Definition later (w w' : World) : Prop :=
  swarmDataStore w' = swarmDataStore w
  /\ random_source w' = random_source w /\ clock_source w' = clock_source w
  /\ (random_calls w <= random_calls w')%nat /\ (clock_calls w <= clock_calls w')%nat.

(** A computation that only reads the clock and draws numbers. *)
Definition reads_only {A} (c : M A) : Prop :=
  forall w, exists a w', c w = (Return a, w') /\ later w w'.

Definition is_some {A} (o : option A) : bool :=
  match o with Some _ => true | None => false end.

(** What the handler writes over the payload and what it keeps. *)
Definition stamped_at (w : World) (d rec : SwarmData) : Prop :=
  serverTimestamp rec = Some (clock_source w (clock_calls w))
  /\ id rec = Some {| id_now := clock_source w (S (clock_calls w));
                      id_random := next_draw w |}
  /\ sessionId rec = sessionId d /\ timestamp rec = timestamp d
  /\ populations rec = populations d
  /\ totalIndividuals rec = totalIndividuals d
  /\ userAgent rec = userAgent d /\ format rec = format d.

Definition sample_record (n : Z) : SwarmData :=
  {| sessionId := ClientSession (jsstr "session_1");
     timestamp := n;
     populations := Some [ {| count := Int n; parameters := sample_parameters |} ];
     totalIndividuals := Int n;
     userAgent := Some (jsstr "Mozilla/5.0");
     format := None;
     serverTimestamp := None;
     id := None |}.












(** The clock never goes back. *)
Definition clock_monotone (w : World) : Prop :=
  forall i j, (i <= j)%nat -> clock_source w i <= clock_source w j.

(** A record with a server time, not after [t]. *)
Definition not_after (t : Z) (d : SwarmData) : Prop :=
  exists s, serverTimestamp d = Some s /\ s <= t.

(** From the front to the back the server times do not go up. *)
Fixpoint newest_first (store : list SwarmData) : Prop :=
  match store with
  | [] => True
  | d :: rest =>
      (exists t, serverTimestamp d = Some t /\ Forall (not_after t) rest)
      /\ newest_first rest
  end.

(** The store is in order and no record is ahead of the clock. *)
Definition in_order (w : World) : Prop :=
  newest_first (swarmDataStore w)
  /\ Forall (not_after (clock_source w (clock_calls w))) (swarmDataStore w).

Definition thirds : Parameters :=
  {| neighborhoodRadius := Fin (1 # 3); normalSpeed := Fin (2 # 3);
     maxSpeed := Fin (-(1 # 3)); c1 := Fin (1 # 8); c2 := Fin (-(1 # 8));
     c3 := Fin (1 # 1000); c4 := Fin (-(1 # 1000)); c5 := Fin (12345 # 1);
     color := jsstr "red" |}.

Definition signed_payload : SwarmData :=
  {| sessionId := ClientSession (jsstr "session_2");
     timestamp := 1700000000000;
     populations := Some [ {| count := Int 3; parameters := thirds |};
                           {| count := Int (-4); parameters := sample_parameters |} ];
     totalIndividuals := Int (-1);
     userAgent := None;
     format := None;
     serverTimestamp := None;
     id := None |}.


(** * Properties *)

(** ** The model at work *)

Example line_pattern_demo :
  str_match line_pattern (jsstr "ab 12 * (x, y) z")
  = Some [jsstr "12"; jsstr "x, y"].
Proof. reflexivity. Qed.

Example parseInt_demo :
  List.map parseInt [jsstr " 42px"; jsstr "-7"; jsstr "0x1f"; jsstr "abc"; jsstr "undefined"; jsstr "007"]
  = [Int 42; Int (-7); Int 31; NaNi; NaNi; Int 7].
Proof. reflexivity. Qed.

Example toFixed2_demo :
  List.map (fun s => toFixed2 (parseFloat (jsstr s)))
    ["293.86"; "0.5"; "-.125e1"; "7"; "x"; "-0.001"; "12.345e1"]%string
  = List.map jsstr ["293.86"; "0.50"; "-1.25"; "7.00"; "NaN"; "-0.00"; "123.45"]%string.
Proof. vm_compute. reflexivity. Qed.

(** Scenarios A, C and D of the specification. *)
Example scenario_A :
  match Railway.parseStandardFormat (jsstr "2 * (10.0, 1.0, 2.0, 0.5, 0.5, 0.5, 0.1, 0.9)") (world0 []) with
  | (Return d, _) =>
      option_map (List.map count) (populations d) = Some [Int 2]
      /\ totalIndividuals d = Int 2
  | _ => False
  end.
Proof. vm_compute. split; reflexivity. Qed.

Example scenario_C :
  match Railway.parseStandardFormat
          (jsstr "2 * (10.0, 1.0, 2.0, 0.5, 0.5, 0.5, 0.1, 0.9)" ++ ch_nl :: jsstr "garbage")
          (world0 []) with
  | (Return d, _) => option_map (List.map count) (populations d) = Some [Int 2]
  | _ => False
  end.
Proof. vm_compute. reflexivity. Qed.

Example scenario_D : fst (latest_handler (world0 [])) = Return NoData.
Proof. reflexivity. Qed.

(** ** Characters *)

Lemma is_digit_range c : is_digit c = true <-> (48 <= c <= 57)%N.
Proof.
  unfold is_digit. rewrite andb_true_iff, !N.leb_le. tauto.
Qed.

Lemma digit_not_space c : is_digit c = true -> is_space c = false.
Proof.
  intros H. apply is_digit_range in H. unfold is_space.
  repeat (apply orb_false_iff; split);
    try (apply andb_false_iff; right; apply N.leb_gt; lia);
    try (apply andb_false_iff; left; apply N.leb_gt; lia);
    apply N.eqb_neq; lia.
Qed.

Lemma space_not_digit c : is_space c = true -> is_digit c = false.
Proof.
  intros H. destruct (is_digit c) eqn:E; [|reflexivity].
  apply digit_not_space in E. congruence.
Qed.

Lemma digit_cases c :
  is_digit c = true ->
  (c = 48 \/ c = 49 \/ c = 50 \/ c = 51 \/ c = 52 \/ c = 53 \/ c = 54
   \/ c = 55 \/ c = 56 \/ c = 57)%N.
Proof. intros H. apply is_digit_range in H. lia. Qed.

(** ** Lists and runs *)

Section Runs.
Context {A : Type}.
Variable f : A -> bool.

Lemma take_drop_while (l : list A) : take_while f l ++ drop_while f l = l.
Proof.
  induction l as [|x l IH]; simpl; [reflexivity|].
  destruct (f x); simpl; [now rewrite IH | reflexivity].
Qed.

Lemma take_while_all (l : list A) : forallb f (take_while f l) = true.
Proof.
  induction l as [|x l IH]; simpl; [reflexivity|].
  destruct (f x) eqn:E; simpl; [now rewrite E | reflexivity].
Qed.

Lemma drop_while_stops (l : list A) : stops f (drop_while f l).
Proof.
  induction l as [|x l IH]; simpl; [exact I|].
  destruct (f x) eqn:E; simpl; assumption.
Qed.

Lemma take_while_app (a b : list A) :
  forallb f a = true -> stops f b -> take_while f (a ++ b) = a.
Proof.
  intros Ha Hb. induction a as [|x a IH]; simpl in *.
  - destruct b as [|y b]; simpl in *; [reflexivity | now rewrite Hb].
  - apply andb_true_iff in Ha. destruct Ha as [Hx Ha].
    rewrite Hx. now rewrite IH.
Qed.

Lemma drop_while_app (a b : list A) :
  forallb f a = true -> stops f b -> drop_while f (a ++ b) = b.
Proof.
  intros Ha Hb. induction a as [|x a IH]; simpl in *.
  - destruct b as [|y b]; simpl in *; [reflexivity | now rewrite Hb].
  - apply andb_true_iff in Ha. destruct Ha as [Hx Ha].
    rewrite Hx. now apply IH.
Qed.


Lemma take_while_none (l : list A) : stops f l -> take_while f l = [].
Proof. destruct l as [|x l]; simpl; intros H; [reflexivity | now rewrite H]. Qed.

Lemma drop_while_all (l : list A) : forallb f l = true -> drop_while f l = [].
Proof.
  intros H. rewrite <- (app_nil_r l). now apply drop_while_app.
Qed.
End Runs.

(** ** The monad *)

Lemma returns_ret {A} (a : A) (P : A -> Prop) : P a -> returns (ret a) P.
Proof. intros H w. exists a, w. now repeat split. Qed.

Lemma returns_bind {A B} (c : M A) (k : A -> M B) (P : A -> Prop) (Q : B -> Prop) :
  returns c P -> (forall a, P a -> returns (k a) Q) -> returns (bind c k) Q.
Proof.
  intros Hc Hk w. destruct (Hc w) as (a & w1 & E1 & S1 & Pa).
  destruct (Hk a Pa w1) as (b & w2 & E2 & S2 & Qb).
  exists b, w2. unfold bind. rewrite E1. repeat split; [assumption | congruence | assumption].
Qed.

Lemma returns_weaken {A} (c : M A) (P Q : A -> Prop) :
  returns c P -> (forall a, P a -> Q a) -> returns c Q.
Proof.
  intros Hc HPQ w. destruct (Hc w) as (a & w1 & E1 & S1 & Pa).
  exists a, w1. auto.
Qed.

Lemma returns_Date_now : returns Date_now (fun _ => True).
Proof. intros w. eexists _, _. unfold Date_now. repeat split. Qed.

Lemma returns_Math_random : returns Math_random unit_interval.
Proof.
  intros w. eexists _, _. unfold Math_random. repeat split.
  - unfold Qle. simpl. rewrite Z.mul_1_r.
    apply Z.mod_pos_bound. reflexivity.
  - unfold Qlt. simpl. rewrite Z.mul_1_r.
    apply Z.mod_pos_bound. reflexivity.
Qed.

Lemma returns_forEach {A S} (xs : list A) (body : A -> S -> M S) (I : S -> Prop) :
  (forall x acc, I acc -> returns (body x acc) I) ->
  forall acc, I acc -> returns (forEach xs body acc) I.
Proof.
  intros Hbody. induction xs as [|x xs IH]; intros acc Hacc; simpl.
  - now apply returns_ret.
  - eapply returns_bind; [now apply Hbody | exact IH].
Qed.

(** ** The matcher on the line pattern *)

(** When the rest of the pattern cannot start with a character of the
    class, backtracking never helps: a greedy run is the maximal one. *)
Lemma greedy_max k rest s :
  (forall c s', cmem k c = true -> rest (c :: s') = None) ->
  greedy k rest s =
    match rest (drop_while (cmem k) s) with
    | Some r => Some (take_while (cmem k) s, r)
    | None => None
    end.
Proof.
  intros Hrest. induction s as [|c s IH]; simpl.
  - destruct (rest []); reflexivity.
  - destruct (cmem k c) eqn:E.
    + rewrite IH. destruct (rest (drop_while (cmem k) s)); [reflexivity|].
      now rewrite (Hrest c s E).
    + destruct (rest (c :: s)); reflexivity.
Qed.

Section MatchSteps.
Variable at_end : bool.
Variable k : cclass.
Variable cap : bool.
Variable ps : list piece.

Lemma match_once s :
  match_here at_end (Piece k Once cap :: ps) s =
    match s with
    | c :: s' =>
        if cmem k c
        then option_map (add_capture (Piece k Once cap) [c]) (match_here at_end ps s')
        else None
    | [] => None
    end.
Proof. reflexivity. Qed.

Lemma match_star s :
  cannot_follow at_end k ps ->
  match_here at_end (Piece k Star cap :: ps) s =
    option_map (add_capture (Piece k Star cap) (take_while (cmem k) s))
      (match_here at_end ps (drop_while (cmem k) s)).
Proof.
  intros H. simpl. rewrite greedy_max by exact H.
  destruct (match_here at_end ps (drop_while (cmem k) s)); reflexivity.
Qed.

Lemma match_plus s :
  cannot_follow at_end k ps ->
  match_here at_end (Piece k Plus cap :: ps) s =
    match take_while (cmem k) s with
    | [] => None
    | run => option_map (add_capture (Piece k Plus cap) run)
               (match_here at_end ps (drop_while (cmem k) s))
    end.
Proof.
  intros H. simpl. destruct s as [|c s]; [reflexivity|]. simpl.
  destruct (cmem k c); [|reflexivity].
  rewrite greedy_max by exact H.
  destruct (match_here at_end ps (drop_while (cmem k) s)); reflexivity.
Qed.
End MatchSteps.

Lemma space_not_star c : is_space c = true -> (c =? ch_star)%N = false.
Proof.
  intros H. apply N.eqb_neq. intros ->. discriminate H.
Qed.

Lemma space_not_lpar c : is_space c = true -> (c =? ch_lpar)%N = false.
Proof.
  intros H. apply N.eqb_neq. intros ->. discriminate H.
Qed.

Lemma digit_not_star c : is_digit c = true -> (c =? ch_star)%N = false.
Proof.
  intros H. apply N.eqb_neq. intros ->. discriminate H.
Qed.

Lemma match_here_line s :
  match_here false (re_pieces line_pattern) s = option_map captures_of (line_match s).
Proof.
  unfold line_match, line_pattern, re_pieces.
  rewrite match_plus.
  2:{ intros d s' Hd. simpl in Hd. simpl.
      rewrite (digit_not_space _ Hd). simpl. now rewrite (digit_not_star _ Hd). }
  change (cmem CDigit) with is_digit.
  destruct (take_while is_digit s) as [|d0 ds]; [reflexivity|].
  rewrite match_star.
  2:{ intros d s' Hd. simpl in Hd. simpl. now rewrite (space_not_star _ Hd). }
  change (cmem CSpace) with is_space.
  rewrite match_once.
  destruct (drop_while is_space (drop_while is_digit s)) as [|x s2]; [reflexivity|].
  simpl expect. simpl cmem. destruct (x =? ch_star)%N; [|reflexivity].
  rewrite match_star.
  2:{ intros d s' Hd. simpl in Hd. simpl. now rewrite (space_not_lpar _ Hd). }
  change (cmem CSpace) with is_space.
  rewrite match_once.
  destruct (drop_while is_space s2) as [|y s4]; [reflexivity|].
  simpl expect. simpl cmem. destruct (y =? ch_lpar)%N; [|reflexivity].
  rewrite match_plus.
  2:{ intros d s' Hd. simpl in Hd. simpl.
      apply negb_true_iff in Hd. now rewrite Hd. }
  change (cmem (CNot ch_rpar)) with not_rpar.
  destruct (take_while not_rpar s4) as [|g0 g]; [reflexivity|].
  rewrite match_once.
  destruct (drop_while not_rpar s4) as [|u rest]; [reflexivity|].
  simpl expect. simpl cmem. destruct (u =? ch_rpar)%N; reflexivity.
Qed.

Lemma expect_some c s s' : expect c s = Some s' <-> s = c :: s'.
Proof.
  unfold expect. destruct s as [|x s0].
  - split; discriminate.
  - destruct (x =? c)%N eqn:E.
    + apply N.eqb_eq in E. subst. split; intros H; inversion H; reflexivity.
    + apply N.eqb_neq in E. split; [discriminate|].
      intros H. inversion H. contradiction.
Qed.

Lemma line_match_sound s ds g rest :
  line_match s = Some (ds, g, rest) -> line_shape s ds g rest.
Proof.
  unfold line_match. intros H.
  destruct (take_while is_digit s) as [|d0 ds0] eqn:Eds; [discriminate|].
  destruct (expect ch_star (drop_while is_space (drop_while is_digit s)))
    as [s2|] eqn:E1; [|discriminate].
  destruct (expect ch_lpar (drop_while is_space s2)) as [s4|] eqn:E2; [|discriminate].
  destruct (take_while not_rpar s4) as [|g0 g1] eqn:Eg; [discriminate|].
  destruct (expect ch_rpar (drop_while not_rpar s4)) as [r|] eqn:E3; [|discriminate].
  inversion H; subst; clear H.
  apply expect_some in E1, E2, E3.
  exists (take_while is_space (drop_while is_digit s)), (take_while is_space s2).
  repeat split.
  - rewrite <- E3, <- Eg.
    rewrite (take_drop_while not_rpar s4).
    rewrite <- E2, (take_drop_while is_space s2).
    rewrite <- E1, (take_drop_while is_space (drop_while is_digit s)).
    rewrite <- Eds. symmetry. apply take_drop_while.
  - discriminate.
  - rewrite <- Eds. apply take_while_all.
  - apply take_while_all.
  - apply take_while_all.
  - discriminate.
  - rewrite <- Eg. apply take_while_all.
Qed.

Lemma stops_space_then (w rest : jsstring) (f : code -> bool) (c : code) :
  forallb is_space w = true ->
  (forall x, is_space x = true -> f x = false) -> f c = false ->
  stops f (w ++ c :: rest).
Proof.
  intros Hw Hs Hc. destruct w as [|x w]; simpl in *; [assumption|].
  apply andb_true_iff in Hw. now apply Hs.
Qed.

Lemma line_match_complete s ds g rest :
  line_shape s ds g rest -> line_match s = Some (ds, g, rest).
Proof.
  intros (w1 & w2 & -> & Hds & Dds & Hw1 & Hw2 & Hg & Dg).
  unfold line_match.
  assert (S1 : stops is_digit (w1 ++ ch_star :: w2 ++ ch_lpar :: g ++ ch_rpar :: rest)).
  { apply stops_space_then; auto using space_not_digit. }
  rewrite take_while_app by assumption.
  rewrite drop_while_app by assumption.
  destruct ds as [|d0 ds]; [congruence|].
  rewrite drop_while_app by (try assumption; exact eq_refl).
  simpl expect. cbv beta iota.
  assert (S2 : stops is_space (ch_lpar :: g ++ ch_rpar :: rest)) by exact eq_refl.
  rewrite drop_while_app by assumption.
  simpl expect. cbv beta iota.
  assert (S3 : stops not_rpar (ch_rpar :: rest)) by exact eq_refl.
  rewrite take_while_app by assumption.
  rewrite drop_while_app by assumption.
  destruct g as [|g0 g]; [congruence|]. reflexivity.
Qed.

Lemma search_line s :
  search false (re_pieces line_pattern) s = option_map captures_of (line_search s).
Proof.
  induction s as [|c s IH].
  - reflexivity.
  - cbn [search line_search]. rewrite match_here_line.
    destruct (line_match (c :: s)); [reflexivity | exact IH].
Qed.

Lemma str_match_line s :
  str_match line_pattern s =
    option_map (fun r => [fst (fst r); snd (fst r)]) (line_search s).
Proof.
  unfold str_match. cbn [re_bol re_eol line_pattern].
  change (search false _ s) with (search false (re_pieces line_pattern) s).
  rewrite search_line. destruct (line_search s) as [[[ds g] rest]|]; reflexivity.
Qed.

Lemma line_search_none s : line_search s = None <-> no_match s.
Proof.
  induction s as [|c s IH]; cbn [line_search].
  - split.
    + intros _ pre s ds g rest E H.
      symmetry in E. apply app_eq_nil in E as [_ ->].
      apply line_match_complete in H. discriminate H.
    + reflexivity.
  - destruct (line_match (c :: s)) as [[[ds g] rest]|] eqn:E.
    + split; [discriminate|]. intros H. exfalso.
      apply (H [] (c :: s) ds g rest eq_refl). now apply line_match_sound.
    + rewrite IH. split.
      * intros H pre s0 ds g rest E0 Hs.
        destruct pre as [|p pre]; simpl in E0.
        -- subst s0. apply line_match_complete in Hs. congruence.
        -- inversion E0; subst. eapply H; eauto.
      * intros H pre s0 ds g rest E0 Hs.
        apply (H (c :: pre) s0 ds g rest); [now rewrite E0 | assumption].
Qed.

Lemma line_search_some s ds g rest :
  line_search s = Some (ds, g, rest) <-> exists pre, leftmost_match s pre ds g rest.
Proof.
  revert ds g rest. induction s as [|c s IH]; intros ds g rest; cbn [line_search].
  - split; [discriminate|].
    intros (pre & (s0 & E & Hs) & _).
    symmetry in E. apply app_eq_nil in E as [_ ->].
    apply line_match_complete in Hs. discriminate Hs.
  - destruct (line_match (c :: s)) as [[[ds0 g0] rest0]|] eqn:E.
    + split.
      * intros H. inversion H; subst. exists []. split.
        -- exists (c :: s). split; [reflexivity | now apply line_match_sound].
        -- intros pre' s' ds' g' rest' _ Hlt. inversion Hlt.
      * intros (pre & (s0 & E0 & Hs) & Hmin).
        destruct pre as [|p pre].
        -- simpl in E0. subst s0. apply line_match_complete in Hs. congruence.
        -- exfalso. apply (Hmin [] (c :: s) ds0 g0 rest0 eq_refl).
           ++ simpl. lia.
           ++ now apply line_match_sound.
    + rewrite IH. split.
      * intros (pre & (s0 & E0 & Hs) & Hmin). exists (c :: pre). split.
        -- exists s0. split; [now rewrite E0 | assumption].
        -- intros pre' s' ds' g' rest' E1 Hlt Hs'.
           destruct pre' as [|p' pre']; simpl in E1.
           ++ subst s'. apply line_match_complete in Hs'. congruence.
           ++ inversion E1 as [[Ec E2]].
              apply (Hmin pre' s' ds' g' rest' E2); [|assumption].
              simpl in Hlt. lia.
      * intros (pre & (s0 & E0 & Hs) & Hmin).
        destruct pre as [|p pre].
        -- simpl in E0. subst s0. apply line_match_complete in Hs. congruence.
        -- simpl in E0. injection E0 as Ec Es. subst p s. exists pre. split.
           ++ exists s0. split; [reflexivity | assumption].
           ++ intros pre' s' ds' g' rest' E1 Hlt.
              apply (Hmin (c :: pre') s' ds' g' rest'); [now rewrite E1 | simpl; lia].
Qed.

(** ** Numbers read from digits *)

Lemma uint_head_digit c s : is_digit c = true -> uint_of_codes (c :: s) <> Decimal.Nil.
Proof.
  intros H. apply digit_cases in H.
  repeat (destruct H as [H|H]; [subst c; discriminate|]).
  subst c. discriminate.
Qed.

Lemma dec_value_nonneg s : 0 <= dec_value s.
Proof. unfold dec_value. apply N2Z.is_nonneg. Qed.

Lemma digit_no_sign c : is_digit c = true -> read_sign (c :: nil) = (false, c :: nil).
Proof.
  intros H. apply is_digit_range in H. unfold read_sign.
  destruct (c =? ch_minus)%N eqn:E1.
  { apply N.eqb_eq in E1. subst c. unfold ch_minus in H. lia. }
  destruct (c =? ch_plus)%N eqn:E2.
  { apply N.eqb_eq in E2. subst c. unfold ch_plus in H. lia. }
  reflexivity.
Qed.

Lemma read_sign_digit c s : is_digit c = true -> read_sign (c :: s) = (false, c :: s).
Proof.
  intros H. pose proof (digit_no_sign c H) as E. unfold read_sign in *.
  destruct (c =? ch_minus)%N; [discriminate|].
  destruct (c =? ch_plus)%N; [discriminate|]. reflexivity.
Qed.

Lemma digit_not_x c : is_digit c = true -> is_x c = false.
Proof.
  intros H. apply is_digit_range in H. unfold is_x.
  apply orb_false_iff. split; apply N.eqb_neq; lia.
Qed.

(** [parseInt] of a non-empty string of digits is its decimal value. *)
Lemma parseInt_digits s :
  s <> [] -> forallb is_digit s = true -> parseInt s = Int (dec_value s).
Proof.
  intros Hne Hd. destruct s as [|c s]; [congruence|].
  simpl in Hd. apply andb_true_iff in Hd. destruct Hd as [Hc Hs].
  unfold parseInt, trimStart. simpl drop_while.
  rewrite (digit_not_space _ Hc). rewrite (read_sign_digit c _ Hc). simpl apply_sign.
  pose proof (uint_head_digit c s Hc) as Hnil.
  destruct s as [|x s].
  - destruct (uint_of_codes [c]); [congruence | reflexivity ..].
  - simpl in Hs. apply andb_true_iff in Hs. destruct Hs as [Hx _].
    rewrite (digit_not_x _ Hx), andb_false_r.
    destruct (uint_of_codes (c :: x :: s)); [congruence | reflexivity ..].
Qed.

(** ** Colors *)

Lemma floor_scale (r : Q) (n : positive) :
  unit_interval r -> 0 <= Math_floor (r * (Zpos n # 1)) < Zpos n.
Proof.
  destruct r as [a b]. unfold unit_interval, Qle, Qlt, Math_floor. simpl.
  intros [H0 H1]. rewrite Z.mul_1_r in H0, H1.
  rewrite Pos.mul_1_r. split.
  - apply Z.div_pos; lia.
  - apply Z.div_lt_upper_bound; nia.
Qed.

Lemma generateRandomColor_hsl : returns Railway.generateRandomColor hsl_color.
Proof.
  unfold Railway.generateRandomColor.
  eapply returns_bind; [apply returns_Math_random|]. intros r1 H1.
  eapply returns_bind; [apply returns_Math_random|]. intros r2 H2.
  eapply returns_bind; [apply returns_Math_random|]. intros r3 H3.
  apply returns_ret.
  pose proof (floor_scale r1 360 H1). pose proof (floor_scale r2 40 H2).
  pose proof (floor_scale r3 30 H3).
  eexists _, _, _. split; [reflexivity|]. lia.
Qed.

(** ** Sums *)

Lemma js_add_comm a b : js_add a b = js_add b a.
Proof. destruct a, b; simpl; try reflexivity. now rewrite Z.add_comm. Qed.

Lemma js_add_assoc a b c : js_add a (js_add b c) = js_add (js_add a b) c.
Proof. destruct a, b, c; simpl; try reflexivity. now rewrite Z.add_assoc. Qed.


Lemma sum_counts_app pops pop :
  sum_counts (pops ++ [pop]) = js_add (sum_counts pops) (count pop).
Proof.
  induction pops as [|p pops IH]; simpl.
  - destruct (count pop); simpl; [now rewrite Z.add_0_r | reflexivity].
  - rewrite IH. apply js_add_assoc.
Qed.



(** ** The text parser, line by line *)

Lemma eight_params (vs : list jsnum) :
  length vs = 8%nat ->
  [param vs 0; param vs 1; param vs 2; param vs 3;
   param vs 4; param vs 5; param vs 6; param vs 7] = vs.
Proof.
  intros H.
  do 8 (destruct vs as [|? vs]; [discriminate|]).
  destruct vs; [reflexivity | discriminate].
Qed.

Lemma parse_line_step line acc :
  returns (Railway.parse_line line acc) (line_step line acc).
Proof.
  unfold Railway.parse_line, line_step, line_fields.
  rewrite str_match_line.
  destruct (line_search line) as [[[ds g] rest]|]; simpl option_map; cbv beta iota.
  2:{ now apply returns_ret. }
  unfold group. simpl nth. fold (tokens_of g).
  destruct (length (tokens_of g) =? 8)%nat eqn:E.
  2:{ now apply returns_ret. }
  apply Nat.eqb_eq in E.
  eapply returns_bind; [apply generateRandomColor_hsl|]. intros col Hcol.
  apply returns_ret. eexists. split; [|split; [|reflexivity]].
  - unfold fields_of. simpl. now rewrite eight_params.
  - exact Hcol.
Qed.

Lemma forEach_parse_line lines acc :
  returns (forEach lines Railway.parse_line acc) (lines_steps lines acc).
Proof.
  revert acc. induction lines as [|line lines IH]; intros acc; simpl.
  - apply returns_ret. constructor.
  - eapply returns_bind; [apply parse_line_step|]. intros acc1 H1.
    eapply returns_weaken; [apply IH|]. intros acc2 H2.
    econstructor; eassumption.
Qed.

Lemma line_fields_count line c vs :
  line_fields line = Some (c, vs) ->
  (exists n, c = Int n /\ 0 <= n) /\ length vs = 8%nat.
Proof.
  unfold line_fields.
  destruct (line_search line) as [[[ds g] rest]|] eqn:E; [|discriminate].
  destruct (length (tokens_of g) =? 8)%nat eqn:E8; [|discriminate].
  intros H. inversion H; subst; clear H.
  apply Nat.eqb_eq in E8. split; [|assumption].
  apply line_search_some in E. destruct E as (pre & (s & _ & Hs) & _).
  destruct Hs as (w1 & w2 & _ & Hne & Hd & _).
  rewrite (parseInt_digits ds Hne Hd).
  eexists. split; [reflexivity | apply dec_value_nonneg].
Qed.

(** What the loop keeps true of its two variables. *)
Lemma lines_steps_inv lines acc acc' :
  lines_steps lines acc acc' ->
  Forall population_ok (fst acc) -> snd acc = sum_counts (fst acc) ->
  Forall population_ok (fst acc')
  /\ snd acc' = sum_counts (fst acc')
  /\ List.map fields_of (fst acc')
     = List.map fields_of (fst acc) ++ flat_map (fun l => option_list (line_fields l)) lines.
Proof.
  induction 1 as [acc | line lines acc acc1 acc2 Hstep Hrest IH]; intros Hok Hsum.
  - simpl. rewrite app_nil_r. auto.
  - unfold line_step in Hstep. simpl flat_map.
    destruct (line_fields line) as [[c vs]|] eqn:E.
    + destruct Hstep as (pop & Hf & Hcol & ->). simpl in IH.
      destruct (line_fields_count line c vs E) as [Hc _].
      assert (Hcnt : count pop = c).
      { unfold fields_of in Hf. now injection Hf. }
      assert (Hpop : population_ok pop).
      { split; [|assumption]. unfold count_ok. now rewrite Hcnt. }
      destruct IH as (I1 & I2 & I3).
      * apply Forall_app. split; [assumption | now constructor].
      * rewrite sum_counts_app, Hsum, Hcnt. reflexivity.
      * repeat split; [assumption..|].
        rewrite I3, map_app. simpl. rewrite Hf, <- app_assoc. reflexivity.
    + subst acc1. simpl. apply IH; assumption.
Qed.

Lemma parseStandardFormat_parsed textData :
  returns (Railway.parseStandardFormat textData) (parsed textData).
Proof.
  unfold Railway.parseStandardFormat.
  eapply returns_bind; [apply forEach_parse_line|]. intros acc Hacc.
  eapply returns_bind; [apply returns_Date_now|]. intros now _.
  eapply returns_bind; [apply returns_Math_random|]. intros r _.
  eapply returns_bind; [apply returns_Date_now|]. intros t _.
  apply returns_ret.
  apply lines_steps_inv in Hacc; [|constructor | reflexivity].
  destruct Hacc as (H1 & H2 & H3).
  exists (fst acc). simpl. repeat split; assumption.
Qed.

(** ** The store *)

Lemma firstn_min {A} (n : nat) (l : list A) :
  firstn (Nat.min n (length l)) l = firstn n l.
Proof.
  destruct (Nat.le_gt_cases n (length l)) as [H|H].
  - now rewrite Nat.min_l.
  - rewrite Nat.min_r by lia. rewrite firstn_all. symmetry. apply firstn_all2. lia.
Qed.

Lemma Array_slice_0 {A} (n : Z) (l : list A) :
  0 <= n -> Array_slice 0 n l = firstn (Z.to_nat n) l.
Proof.
  intros Hn. unfold Array_slice, slice_index.
  replace (0 <? 0) with false by reflexivity.
  destruct (n <? 0) eqn:E; [apply Z.ltb_lt in E; lia|].
  rewrite (Z.min_l 0) by lia. simpl skipn. rewrite Z.sub_0_r.
  rewrite <- (firstn_min (Z.to_nat n)). f_equal. lia.
Qed.

Lemma Array_slice_0_neg {A} (n : Z) (l : list A) :
  n < 0 -> Array_slice 0 n l = firstn (length l - Z.to_nat (- n)) l.
Proof.
  intros Hn. unfold Array_slice, slice_index.
  replace (0 <? 0) with false by reflexivity.
  apply Z.ltb_lt in Hn. rewrite Hn. apply Z.ltb_lt in Hn.
  rewrite (Z.min_l 0) by lia. simpl skipn. f_equal. lia.
Qed.

(** [unshift] and the cut to the capacity, as one step. *)
Lemma bounded_insert (cap : nat) (d : SwarmData) (store : list SwarmData) :
  (if (cap <? length (d :: store))%nat
   then Array_slice 0 (Z.of_nat cap) (d :: store)
   else d :: store) = firstn cap (d :: store).
Proof.
  destruct (cap <? length (d :: store))%nat eqn:E.
  - rewrite Array_slice_0 by lia. now rewrite Nat2Z.id.
  - apply Nat.ltb_ge in E. symmetry. now apply firstn_all2.
Qed.

(** The Railway handler always answers, and whatever it answers the record
    is in the store. *)
Lemma railway_post_spec body w :
  exists resp d rec w',
    Railway.post_handler body w = (Return resp, w')
    /\ payload_of body d /\ stamped d rec
    /\ swarmDataStore w' = firstn Railway.MAX_STORED_DATA (rec :: swarmDataStore w)
    /\ post_response (has_populations d) rec (swarmDataStore w') resp.
Proof.
  assert (Hbody : returns (match body with
                           | Railway.TextBody s => Railway.parseStandardFormat s
                           | Railway.JsonBody d => ret d
                           end) (payload_of body)).
  { destruct body as [s|d0]; [apply parseStandardFormat_parsed|].
    now apply returns_ret. }
  destruct (Hbody w) as (d & w1 & E1 & S1 & Hd).
  unfold Railway.post_handler, try_catch.
  unfold bind at 1. rewrite E1.
  unfold bind, Date_now, Math_random, get_store, put_store, set_store, ret; simpl.
  rewrite S1.
  set (rec := set_id _ _).
  pose proof (bounded_insert Railway.MAX_STORED_DATA rec (swarmDataStore w)) as Hins.
  simpl length in Hins.
  destruct (Railway.MAX_STORED_DATA <? S (length (swarmDataStore w)))%nat eqn:Ecap;
    simpl; unfold populations_of; simpl;
    destruct (populations d) eqn:Ep; simpl;
    eexists _, d, rec, _; (split; [reflexivity|]);
    (split; [assumption|]); (split; [eexists _, _; reflexivity|]);
    simpl; (split; [exact Hins|]);
    unfold post_response, has_populations; rewrite Ep;
    try reflexivity; eexists; reflexivity.
Qed.

(** The example server answers with a failure when the request has no
    User-Agent header or the payload lacks [populations] or [userAgent];
    the record is in the store all the same. *)
Lemma example_post_spec ua body w :
  exists resp rec w',
    ServerExample.post_handler ua body w = (Return resp, w')
    /\ stamped body rec
    /\ swarmDataStore w' = firstn ServerExample.MAX_STORED_DATA (rec :: swarmDataStore w)
    /\ post_response
         (match ua with Some _ => true | None => false end
          && has_populations body && has_userAgent body)
         rec (swarmDataStore w') resp.
Proof.
  unfold ServerExample.post_handler, try_catch.
  unfold bind, Date_now, Math_random, get_store, put_store, set_store, ret; simpl.
  set (rec := set_id _ _).
  pose proof (bounded_insert ServerExample.MAX_STORED_DATA rec (swarmDataStore w)) as Hins.
  simpl length in Hins.
  destruct (ServerExample.MAX_STORED_DATA <? S (length (swarmDataStore w)))%nat eqn:Ecap;
    simpl; unfold ServerExample.getClientInfo, includes_of, populations_of; simpl;
    destruct ua; simpl;
    destruct (populations body) eqn:Ep; simpl;
    destruct (userAgent body) eqn:Eu; simpl;
    eexists _, rec, _; (split; [reflexivity|]);
    (split; [eexists _, _; reflexivity|]);
    simpl; (split; [exact Hins|]);
    unfold post_response, has_populations, has_userAgent; rewrite ?Ep, ?Eu; simpl;
    try reflexivity; eexists; reflexivity.
Qed.

Lemma firstn_app_firstn {A} (n : nat) (x y : list A) :
  firstn n (x ++ firstn n y) = firstn n (x ++ y).
Proof.
  rewrite !firstn_app. f_equal. rewrite firstn_firstn. f_equal. lia.
Qed.

Lemma In_firstn {A} (n : nat) (x : A) (l : list A) : In x (firstn n l) -> In x l.
Proof.
  intros H. rewrite <- (firstn_skipn n l). apply in_or_app. now left.
Qed.

Section Submissions.
Context {B : Type}.
Variable post : B -> M PostResponse.

Variable cap : nat.

Lemma post_each_store built bodies w :
  (forall b, inserts post cap built b) ->
  (length (swarmDataStore w) <= cap)%nat ->
  exists log w',
    post_each post bodies w = (Return (List.map snd log), w')
    /\ Forall2 (fun b rr => built b (fst rr) (snd rr)) bodies log
    /\ swarmDataStore w' = firstn cap (rev (List.map fst log) ++ swarmDataStore w).
Proof.
  intros Hpost. revert w. induction bodies as [|b bodies IH]; intros w Hlen.
  - exists [], w. repeat split; [constructor|].
    simpl. symmetry. now apply firstn_all2.
  - destruct (Hpost b w) as (resp & rec & w1 & E1 & Hb & S1).
    destruct (IH w1) as (log & w2 & E2 & Hbs & S2).
    { rewrite S1. rewrite length_firstn. lia. }
    exists ((rec, resp) :: log), w2. repeat split.
    + simpl. unfold bind. rewrite E1. fold (@bind (list PostResponse)).
      unfold bind. rewrite E2. reflexivity.
    + constructor; assumption.
    + rewrite S2, S1. rewrite firstn_app_firstn. simpl.
      now rewrite <- app_assoc.
Qed.

End Submissions.

(** ** The text parser is total (C10) *)


(** ** The window of recent submissions (C3) *)

Lemma post_response_answers ok rec store resp :
  post_response ok rec store resp -> post_success resp = ok /\ answers rec resp.
Proof.
  unfold post_response. destruct ok.
  - intros ->. simpl. auto.
  - intros (m & ->). simpl. auto.
Qed.

Lemma railway_inserts b :
  inserts Railway.post_handler Railway.MAX_STORED_DATA railway_built b.
Proof.
  intros w. destruct (railway_post_spec b w) as (resp & d & rec & w' & E & Hd & Hs & S & R).
  exists resp, rec, w'. repeat split; try assumption.
  apply post_response_answers in R. destruct R. exists d. auto.
Qed.

Lemma example_inserts req :
  inserts example_post ServerExample.MAX_STORED_DATA example_built req.
Proof.
  intros w. unfold example_post.
  destruct (example_post_spec (fst req) (snd req) w) as (resp & rec & w' & E & Hs & S & R).
  exists resp, rec, w'. repeat split; try assumption.
  apply post_response_answers in R. tauto.
Qed.

Lemma window_firstn (cap : nat) (recs : list SwarmData) :
  (0 < cap)%nat -> window cap recs (firstn cap (rev recs ++ [])).
Proof.
  intros Hcap. rewrite app_nil_r. repeat split.
  - rewrite length_firstn, length_rev. lia.
  - rewrite <- (length_rev recs), Nat.min_comm. symmetry. apply firstn_min.
  - intros recs0 rec ->. rewrite rev_app_distr. simpl.
    destruct cap; [lia | reflexivity].
Qed.

(** C3.  Starting from the empty store, after [N] submissions the store
    has [min N C] records, they are the most recent ones in reverse order
    of insertion, and the last one put in is at position 0; [C] is 50 for
    the Railway server and 100 for the example server. *)
Theorem retention_window :
  (forall bodies w, swarmDataStore w = [] ->
     exists log w',
       post_each Railway.post_handler bodies w = (Return (List.map snd log), w')
       /\ Forall2 (fun b rr => railway_built b (fst rr) (snd rr)) bodies log
       /\ window Railway.MAX_STORED_DATA (List.map fst log) (swarmDataStore w'))
  /\ (forall requests w, swarmDataStore w = [] ->
        exists log w',
          post_each example_post requests w = (Return (List.map snd log), w')
          /\ Forall2 (fun b rr => example_built b (fst rr) (snd rr)) requests log
          /\ window ServerExample.MAX_STORED_DATA (List.map fst log) (swarmDataStore w')).
Proof.
  split.
  - intros bodies w Hw.
    destruct (post_each_store Railway.post_handler Railway.MAX_STORED_DATA
                railway_built bodies w railway_inserts) as (log & w' & E & H2 & S).
    { rewrite Hw. simpl. lia. }
    exists log, w'. split; [assumption|]. split; [assumption|].
    rewrite S, Hw. apply window_firstn. unfold Railway.MAX_STORED_DATA. lia.
  - intros requests w Hw.
    destruct (post_each_store example_post ServerExample.MAX_STORED_DATA
                example_built requests w example_inserts) as (log & w' & E & H2 & S).
    { rewrite Hw. simpl. lia. }
    exists log, w'. split; [assumption|]. split; [assumption|].
    rewrite S, Hw. apply window_firstn. unfold ServerExample.MAX_STORED_DATA. lia.
Qed.

Lemma retention_window_witness :
  let bodies := [Railway.TextBody (jsstr "2 * (10.0, 1.0, 2.0, 0.5, 0.5, 0.5, 0.1, 0.9)");
                 Railway.TextBody (jsstr "no population here")] in
  swarmDataStore (world0 []) = []
  /\ exists log w',
       post_each Railway.post_handler bodies (world0 []) = (Return (List.map snd log), w')
       /\ Forall2 (fun b rr => railway_built b (fst rr) (snd rr)) bodies log
       /\ window Railway.MAX_STORED_DATA (List.map fst log) (swarmDataStore w').
Proof.
  split; [reflexivity|].
  apply (proj1 retention_window _ (world0 [])). reflexivity.
Defined.

(** ** The total of a record (C2) *)






(** ** A body without [populations] (C1, C9) *)

(** What both handlers do with such a body, from any store: they answer
    with a failure, and the record is at the front of the store. *)
Lemma post_without_populations d w :
  populations d = None ->
  (exists message rec w',
     Railway.post_handler (Railway.JsonBody d) w = (Return (PostFailed message), w')
     /\ stamped d rec
     /\ swarmDataStore w' = firstn Railway.MAX_STORED_DATA (rec :: swarmDataStore w))
  /\ (forall ua, exists message rec w',
        ServerExample.post_handler ua d w = (Return (PostFailed message), w')
        /\ stamped d rec
        /\ swarmDataStore w' = firstn ServerExample.MAX_STORED_DATA (rec :: swarmDataStore w)).
Proof.
  intros Hp. split.
  - destruct (railway_post_spec (Railway.JsonBody d) w)
      as (resp & d0 & rec & w' & E & Hd & Hs & S & R).
    simpl in Hd. subst d0. unfold post_response, has_populations in R.
    rewrite Hp in R. destruct R as (m & ->). exists m, rec, w'. auto.
  - intros ua. destruct (example_post_spec ua d w) as (resp & rec & w' & E & Hs & S & R).
    unfold post_response, has_populations in R. rewrite Hp in R.
    rewrite andb_false_r in R. simpl in R.
    destruct R as (m & ->). exists m, rec, w'. auto.
Qed.

(** C1 at a concrete input: the body lacks [populations], the store is
    empty.  Both servers answer with a failure and their store then holds
    one record, where the claim wants it unchanged. *)
Theorem failed_post_is_stored :
  (exists message w',
     Railway.post_handler (Railway.JsonBody payload_without_populations) (world0 [])
       = (Return (PostFailed message), w')
     /\ length (swarmDataStore w') = 1%nat
     /\ swarmDataStore w' <> swarmDataStore (world0 []))
  /\ (exists message w',
        ServerExample.post_handler (Some (jsstr "Mozilla/5.0"))
          payload_without_populations (world0 [])
          = (Return (PostFailed message), w')
        /\ length (swarmDataStore w') = 1%nat
        /\ swarmDataStore w' <> swarmDataStore (world0 [])).
Proof.
  split; eexists _, _; (split; [reflexivity|]); (split; [reflexivity|]); discriminate.
Qed.

(** The latest handler on the two kinds of store the claim speaks of. *)
Lemma latest_empty w :
  swarmDataStore w = [] -> latest_handler w = (Return NoData, w).
Proof.
  intros H. unfold latest_handler, try_catch, bind, get_store. now rewrite H.
Qed.


Lemma latest_front_without_populations w d store :
  swarmDataStore w = d :: store -> populations d = None ->
  exists message, latest_handler w = (Return (LatestFailed message), w).
Proof.
  intros H Hp. unfold latest_handler, try_catch, bind, get_store, populations_of.
  rewrite H, Hp. eexists. reflexivity.
Qed.

(** C9 at a concrete input: after the failed submission above the store is
    not empty and the latest handler answers with a failure (status 500),
    not with the projection of the front record. *)
Theorem latest_after_failed_post :
  exists message w1 message' w2,
    Railway.post_handler (Railway.JsonBody payload_without_populations) (world0 [])
      = (Return (PostFailed message), w1)
    /\ swarmDataStore w1 <> []
    /\ Railway.latest_handler w1 = (Return (LatestFailed message'), w2).
Proof.
  eexists _, _, _, _. split; [reflexivity|]. split; [discriminate | reflexivity].
Qed.

(** ** History (C6) *)

Lemma history_data_railway q w :
  exists h,
    Railway.history_handler q w = (Return h, w)
    /\ h_total h = length (swarmDataStore w)
    /\ h_count h = length (h_data h)
    /\ h_data h =
         Array_slice 0 (Z.min (or_default (parseInt (query_to_string q)) 10)
                          (Z.of_nat (length (swarmDataStore w))))
           (swarmDataStore w).
Proof. eexists. repeat split. Qed.

Lemma history_data_example q w :
  exists h,
    ServerExample.history_handler q w = (Return h, w)
    /\ h_total h = length (swarmDataStore w)
    /\ h_count h = length (h_data h)
    /\ h_data h =
         Array_slice 0 (or_default (parseInt (query_to_string q)) 10) (swarmDataStore w).
Proof. eexists. repeat split. Qed.

(** The limit the handlers use, per kind of query. *)
Lemma limit_omitted : or_default (parseInt (query_to_string None)) 10 = 10.
Proof. reflexivity. Qed.

(** A positive limit, or none: what the claim says, in both servers. *)
Lemma history_positive_limit q n w :
  parseInt (query_to_string q) = Int n -> 0 < n ->
  exists h1 h2,
    Railway.history_handler q w = (Return h1, w)
    /\ ServerExample.history_handler q w = (Return h2, w)
    /\ h_data h1 = firstn (Nat.min (Z.to_nat n) (length (swarmDataStore w))) (swarmDataStore w)
    /\ h_data h2 = h_data h1.
Proof.
  intros Hq Hn.
  destruct (history_data_railway q w) as (h1 & E1 & _ & _ & D1).
  destruct (history_data_example q w) as (h2 & E2 & _ & _ & D2).
  exists h1, h2. split; [assumption|]. split; [assumption|].
  rewrite Hq in D1, D2.
  assert (Hd : or_default (Int n) 10 = n) by (destruct n; [lia | reflexivity..]).
  rewrite Hd in D1, D2.
  rewrite D1, D2, !Array_slice_0 by lia. rewrite firstn_min.
  split; [|symmetry]; rewrite <- (firstn_min (Z.to_nat n)); f_equal; lia.
Qed.

Lemma history_default_limit q w :
  q = None \/ parseInt (query_to_string q) = Int 0 ->
  exists h1 h2,
    Railway.history_handler q w = (Return h1, w)
    /\ ServerExample.history_handler q w = (Return h2, w)
    /\ h_data h1 = firstn (Nat.min 10 (length (swarmDataStore w))) (swarmDataStore w)
    /\ h_data h2 = h_data h1.
Proof.
  intros Hq.
  destruct (history_data_railway q w) as (h1 & E1 & _ & _ & D1).
  destruct (history_data_example q w) as (h2 & E2 & _ & _ & D2).
  exists h1, h2. split; [assumption|]. split; [assumption|].
  assert (Hd : or_default (parseInt (query_to_string q)) 10 = 10).
  { destruct Hq as [->| ->]; reflexivity. }
  rewrite Hd in D1, D2.
  rewrite D1, D2, !Array_slice_0 by lia. rewrite firstn_min.
  split; [|symmetry]; rewrite <- (firstn_min 10); f_equal; lia.
Qed.

(** A negative limit is passed on to [slice], which counts it from the
    end: the last [-n] records are left out. *)
Lemma history_negative_limit q n w :
  parseInt (query_to_string q) = Int n -> n < 0 ->
  exists h1 h2,
    Railway.history_handler q w = (Return h1, w)
    /\ ServerExample.history_handler q w = (Return h2, w)
    /\ h_data h1 = firstn (length (swarmDataStore w) - Z.to_nat (- n)) (swarmDataStore w)
    /\ h_data h2 = h_data h1.
Proof.
  intros Hq Hn.
  destruct (history_data_railway q w) as (h1 & E1 & _ & _ & D1).
  destruct (history_data_example q w) as (h2 & E2 & _ & _ & D2).
  exists h1, h2. split; [assumption|]. split; [assumption|].
  rewrite Hq in D1, D2.
  assert (Hd : or_default (Int n) 10 = n) by (destruct n; [lia | reflexivity..]).
  rewrite Hd in D1, D2.
  rewrite Z.min_l in D1 by lia.
  rewrite D1, D2, !Array_slice_0_neg by lia. auto.
Qed.

(** C6 at a concrete input: one record in the store and [limit=-1].  The
    claim wants the first [min 10 1] records, that is the record; both
    servers answer with no record at all. *)
Theorem history_limit_minus_one :
  let store := [inconsistent_payload] in
  firstn (Nat.min 10 (length store)) store = store
  /\ (exists h w', Railway.history_handler (Some (jsstr "-1")) (world0 store) = (Return h, w')
                   /\ h_data h = [] /\ h_count h = 0%nat /\ h_total h = 1%nat)
  /\ (exists h w', ServerExample.history_handler (Some (jsstr "-1")) (world0 store) = (Return h, w')
                   /\ h_data h = [] /\ h_count h = 0%nat /\ h_total h = 1%nat).
Proof.
  split; [reflexivity|].
  split; eexists _, _; repeat split.
Qed.

(** ** Statistics (C7) *)




(** ** The grammar of a line (C4, C8) *)

(** C4, as stated, fails.  The line [x1*(1,2,3,4,5,6,7,8)] does not match
    the anchored pattern and the parser makes a population of it; the line
    [1*(a,b,c,d,e,f,g,h)] has no numeric token and the parser makes a
    population of it, with eight NaN. *)
Lemma anchored_grammar_counterexample :
  (let text := jsstr "x1*(1,2,3,4,5,6,7,8)" in
   Forall (fun line => spec_line_fields line = None) (split ch_nl text)
   /\ exists d w' pop,
        Railway.parseStandardFormat text (world0 []) = (Return d, w')
        /\ populations d = Some [pop] /\ count pop = Int 1)
  /\ (let text := jsstr "1*(a,b,c,d,e,f,g,h)" in
      Forall (fun line => spec_line_fields line = None) (split ch_nl text)
      /\ exists d w' pop,
           Railway.parseStandardFormat text (world0 []) = (Return d, w')
           /\ populations d = Some [pop]
           /\ fields_of pop = (Int 1, [NaN; NaN; NaN; NaN; NaN; NaN; NaN; NaN])).
Proof.
  split; (split; [repeat constructor|]); eexists _, _, _;
    (split; [reflexivity|]); split; reflexivity.
Qed.

(** C4, amended.  The lines of a text payload are those of the trimmed
    text, split at line feeds, that are not blank.  A line produces a
    population exactly when the pattern [(\d+)\s*\*\s*\(([^)]+)\)] matches
    somewhere in it and the group of the leftmost match splits on commas
    into exactly 8 tokens, numeric or not; its count is the number the
    digits spell and its parameters are [parseFloat] of the trimmed tokens
    (NaN for a token that is no number).  Every other line is skipped
    without error, and the populations of the record are those of the
    producing lines, in order. *)
Theorem parse_lines_leftmost (textData : jsstring) (w : World) :
  exists d w' pops,
    Railway.parseStandardFormat textData w = (Return d, w')
    /\ populations d = Some pops
    /\ List.map fields_of pops
       = flat_map (fun line => option_list (line_fields line))
           (filter (fun line => truthy_string (trim line))
              (split ch_nl (trim textData)))
    /\ forall line c vs,
         line_fields line = Some (c, vs)
         <-> exists pre ds g rest,
               leftmost_match line pre ds g rest
               /\ length (split ch_comma g) = 8%nat
               /\ c = Int (dec_value ds)
               /\ vs = List.map (fun p => parseFloat (trim p)) (split ch_comma g).
Proof.
  destruct (parseStandardFormat_parsed textData w) as (d & w' & E & _ & pops & H).
  destruct H as (Hp & _ & _ & Hf & _).
  exists d, w', pops. split; [exact E|]. split; [exact Hp|]. split; [exact Hf|].
  intros line c vs. unfold line_fields. split.
  - destruct (line_search line) as [[[ds g] rest]|] eqn:Es; [|discriminate].
    destruct (length (tokens_of g) =? 8)%nat eqn:E8; [|discriminate].
    intros H. injection H as <- <-.
    apply Nat.eqb_eq in E8. unfold tokens_of in E8. rewrite length_map in E8.
    apply line_search_some in Es. destruct Es as (pre & Hl).
    exists pre, ds, g, rest. repeat split; try assumption; try apply Hl.
    destruct Hl as ((s & _ & w1 & w2 & _ & Hne & Hd & _) & _).
    now apply parseInt_digits.
  - intros (pre & ds & g & rest & Hl & H8 & -> & ->).
    assert (Es : line_search line = Some (ds, g, rest)).
    { apply line_search_some. now exists pre. }
    rewrite Es. unfold tokens_of. rewrite length_map, H8. simpl.
    destruct Hl as ((s & _ & w1 & w2 & _ & Hne & Hd & _) & _).
    now rewrite (parseInt_digits ds Hne Hd).
Qed.




(** ** The pattern of the specification *)








(** ** Trimming and lines *)


























(** ** Conforming lines under the parser *)











(** ** Printing numbers and reading them back *)

Lemma uint_of_codes_of_uint u : uint_of_codes (codes_of_uint u) = u.
Proof. induction u; simpl; congruence. Qed.

Lemma codes_of_uint_digits u : forallb is_digit (codes_of_uint u) = true.
Proof. induction u; simpl; auto. Qed.

Lemma dec_digits_all n : forallb is_digit (dec_digits n) = true.
Proof. apply codes_of_uint_digits. Qed.

Lemma dec_digits_nonempty n : dec_digits n <> [].
Proof.
  unfold dec_digits. destruct (Z.to_N n) as [|p]; [discriminate|].
  simpl. pose proof (DecimalPos.Unsigned.to_uint_nonnil p) as H.
  destruct (Pos.to_uint p); [congruence | discriminate..].
Qed.

Lemma dec_value_digits n : 0 <= n -> dec_value (dec_digits n) = n.
Proof.
  intros H. unfold dec_value, dec_digits.
  rewrite uint_of_codes_of_uint, DecimalN.Unsigned.of_to. now apply Z2N.id.
Qed.



Lemma parseInt_dec_digits n : 0 <= n -> parseInt (int_to_string n) = Int n.
Proof.
  intros H. unfold int_to_string.
  destruct (n <? 0) eqn:E; [apply Z.ltb_lt in E; lia|].
  rewrite parseInt_digits by (apply dec_digits_nonempty || apply dec_digits_all).
  now rewrite dec_value_digits.
Qed.



Lemma digit_not_dot c : is_digit c = true -> (c =? ch_dot)%N = false.
Proof. intros H. apply is_digit_range in H. apply N.eqb_neq. unfold ch_dot. lia. Qed.



(** ** Values with two decimals *)






(** ** The text of a population *)













(** ** Round trip (C5) *)











(** * More of the handlers

    The submissions step by step in the world, the history and standard
    handlers, and the serializer followed by the parser. *)

(** ** The world of a submission *)

Lemma later_refl w : later w w.
Proof. repeat split; lia. Qed.

Lemma later_trans w1 w2 w3 : later w1 w2 -> later w2 w3 -> later w1 w3.
Proof.
  intros (S1 & R1 & C1 & N1 & M1) (S2 & R2 & C2 & N2 & M2).
  repeat split; try congruence; lia.
Qed.

Lemma reads_only_ret {A} (a : A) : reads_only (ret a).
Proof. intros w. exists a, w. split; [reflexivity | apply later_refl]. Qed.

Lemma reads_only_bind {A B} (c : M A) (k : A -> M B) :
  reads_only c -> (forall a, reads_only (k a)) -> reads_only (bind c k).
Proof.
  intros Hc Hk w. destruct (Hc w) as (a & w1 & E1 & L1).
  destruct (Hk a w1) as (b & w2 & E2 & L2).
  exists b, w2. split; [|eapply later_trans; eassumption].
  unfold bind. now rewrite E1.
Qed.

Lemma reads_only_Date_now : reads_only Date_now.
Proof. intros w. eexists _, _. split; [reflexivity|]. repeat split; simpl; lia. Qed.

Lemma reads_only_Math_random : reads_only Math_random.
Proof. intros w. eexists _, _. split; [reflexivity|]. repeat split; simpl; lia. Qed.

Lemma reads_only_forEach {A S} (xs : list A) (body : A -> S -> M S) (acc : S) :
  (forall x s, reads_only (body x s)) -> reads_only (forEach xs body acc).
Proof.
  intros Hb. revert acc. induction xs as [|x xs IH]; intros acc; simpl.
  - apply reads_only_ret.
  - apply reads_only_bind; [apply Hb | intros a; apply IH].
Qed.

Lemma reads_only_generateRandomColor : reads_only Railway.generateRandomColor.
Proof.
  unfold Railway.generateRandomColor.
  repeat (apply reads_only_bind; [apply reads_only_Math_random | intros ?]).
  apply reads_only_ret.
Qed.

Lemma reads_only_parse_line line acc : reads_only (Railway.parse_line line acc).
Proof.
  unfold Railway.parse_line.
  destruct (str_match line_pattern line); [|apply reads_only_ret].
  destruct (_ =? 8)%nat; [|apply reads_only_ret].
  apply reads_only_bind; [apply reads_only_generateRandomColor | intros ?].
  apply reads_only_ret.
Qed.

Lemma reads_only_parseStandardFormat s : reads_only (Railway.parseStandardFormat s).
Proof.
  unfold Railway.parseStandardFormat.
  apply reads_only_bind; [apply reads_only_forEach, reads_only_parse_line | intros ?].
  apply reads_only_bind; [apply reads_only_Date_now | intros ?].
  apply reads_only_bind; [apply reads_only_Math_random | intros ?].
  apply reads_only_bind; [apply reads_only_Date_now | intros ?].
  apply reads_only_ret.
Qed.

(** The payload of a body, and the world the handler goes on in. *)
Lemma railway_payload body w :
  exists d w1,
    match body with
    | Railway.TextBody s => Railway.parseStandardFormat s
    | Railway.JsonBody d => ret d
    end w = (Return d, w1)
    /\ payload_of body d /\ later w w1
    /\ (forall d0, body = Railway.JsonBody d0 -> d = d0 /\ w1 = w).
Proof.
  destruct body as [s|d0].
  - destruct (parseStandardFormat_parsed s w) as (d & w1 & E & _ & Hd).
    destruct (reads_only_parseStandardFormat s w) as (d' & w1' & E' & L).
    rewrite E in E'. injection E' as <- <-.
    exists d, w1. split; [exact E|]. split; [exact Hd|]. split; [exact L|].
    discriminate.
  - exists d0, w. split; [reflexivity|]. split; [reflexivity|].
    split; [apply later_refl|]. intros d1 H. injection H as <-. auto.
Qed.

(** The Railway handler, step by step: the payload is made, stamped in the
    world it left and put in the store; the response tells whether the
    payload has [populations]. *)
Lemma railway_post_run body w :
  exists resp d w1,
    Railway.post_handler body w = (Return resp, posted Railway.MAX_STORED_DATA w1 d)
    /\ payload_of body d /\ later w w1
    /\ (forall d0, body = Railway.JsonBody d0 -> d = d0 /\ w1 = w)
    /\ post_response (has_populations d) (stamp_in w1 d)
         (swarmDataStore (posted Railway.MAX_STORED_DATA w1 d)) resp.
Proof.
  destruct (railway_payload body w) as (d & w1 & E1 & Hd & L & Hj).
  cut (exists resp w',
         Railway.post_handler body w = (Return resp, w')
         /\ w' = posted Railway.MAX_STORED_DATA w1 d
         /\ post_response (has_populations d) (stamp_in w1 d) (swarmDataStore w') resp).
  { intros (resp & w' & E & -> & R). exists resp, d, w1. auto. }
  unfold Railway.post_handler, try_catch.
  unfold bind at 1. rewrite E1.
  pose proof (bounded_insert Railway.MAX_STORED_DATA (stamp_in w1 d) (swarmDataStore w1)) as Hins.
  unfold posted, stamp_in, next_draw, draw in *.
  unfold bind, Date_now, Math_random, get_store, put_store, set_store, ret; simpl.
  simpl length in Hins.
  destruct (Railway.MAX_STORED_DATA <? S (length (swarmDataStore w1)))%nat eqn:Ecap;
    simpl; unfold populations_of; simpl;
    destruct (populations d) eqn:Ep; simpl;
    eexists _, _; (split; [reflexivity|]);
    (split; [f_equal; exact Hins|]);
    unfold post_response, has_populations; rewrite Ep; simpl;
    try reflexivity; eexists; reflexivity.
Qed.

Lemma example_post_run ua d w :
  exists resp,
    ServerExample.post_handler ua d w = (Return resp, posted ServerExample.MAX_STORED_DATA w d)
    /\ post_response (is_some ua && has_populations d && has_userAgent d) (stamp_in w d)
         (swarmDataStore (posted ServerExample.MAX_STORED_DATA w d)) resp.
Proof.
  cut (exists resp w',
         ServerExample.post_handler ua d w = (Return resp, w')
         /\ w' = posted ServerExample.MAX_STORED_DATA w d
         /\ post_response (is_some ua && has_populations d && has_userAgent d)
              (stamp_in w d) (swarmDataStore w') resp).
  { intros (resp & w' & E & -> & R). exists resp. auto. }
  unfold ServerExample.post_handler, try_catch.
  pose proof (bounded_insert ServerExample.MAX_STORED_DATA (stamp_in w d) (swarmDataStore w)) as Hins.
  unfold posted, stamp_in, next_draw, draw in *.
  unfold bind, Date_now, Math_random, get_store, put_store, set_store, ret; simpl.
  simpl length in Hins.
  destruct (ServerExample.MAX_STORED_DATA <? S (length (swarmDataStore w)))%nat eqn:Ecap;
    simpl; unfold ServerExample.getClientInfo, includes_of, populations_of; simpl;
    destruct ua; simpl;
    destruct (populations d) eqn:Ep; simpl;
    destruct (userAgent d) eqn:Eu; simpl;
    eexists _, _; (split; [reflexivity|]);
    (split; [f_equal; exact Hins|]);
    unfold post_response, has_populations, has_userAgent; rewrite ?Ep, ?Eu; simpl;
    try reflexivity; eexists; reflexivity.
Qed.




(** X2.  The record stored for a JSON body is the body with two fields
    written over: [serverTimestamp] is the first clock reading of the
    handler and [id] is made of the second reading and a draw, whatever the
    client sent there.  The six other fields are stored as sent, and the
    record is at the front of the store; both servers. *)
Theorem post_stamps_record :
  (forall d w, exists resp rec w',
     Railway.post_handler (Railway.JsonBody d) w = (Return resp, w')
     /\ swarmDataStore w' = rec :: firstn 49 (swarmDataStore w)
     /\ stamped_at w d rec)
  /\ (forall ua d w, exists resp rec w',
        ServerExample.post_handler ua d w = (Return resp, w')
        /\ swarmDataStore w' = rec :: firstn 99 (swarmDataStore w)
        /\ stamped_at w d rec).
Proof.
  split.
  - intros d w.
    destruct (railway_post_run (Railway.JsonBody d) w) as (resp & d1 & w1 & E & _ & _ & Hj & _).
    destruct (Hj d eq_refl) as [-> ->].
    eexists resp, (stamp_in w d), _. split; [exact E|]. repeat split.
  - intros ua d w. destruct (example_post_run ua d w) as (resp & E & _).
    eexists resp, (stamp_in w d), _. split; [exact E|]. repeat split.
Qed.

(** ** Eviction and acceptance *)

Lemma firstn_pred_removelast {A} (l : list A) :
  firstn (length l - 1) l = removelast l.
Proof.
  induction l as [|x l IH]; [reflexivity|].
  destruct l as [|y l]; [reflexivity|].
  replace (length (x :: y :: l) - 1)%nat with (S (length (y :: l) - 1))
    by (simpl length; lia).
  cbn [firstn]. rewrite IH. reflexivity.
Qed.

(** The store after a record went in, by the room that was left. *)
Lemma posted_store cap w d :
  (0 < cap)%nat ->
  ((length (swarmDataStore w) < cap)%nat ->
     swarmDataStore (posted cap w d) = stamp_in w d :: swarmDataStore w)
  /\ (length (swarmDataStore w) = cap ->
        swarmDataStore (posted cap w d) = stamp_in w d :: removelast (swarmDataStore w)).
Proof.
  intros Hcap. simpl swarmDataStore. destruct cap as [|cap]; [lia|]. cbn [firstn]. split.
  - intros H. f_equal. apply firstn_all2. lia.
  - intros H. f_equal. rewrite <- firstn_pred_removelast. f_equal. lia.
Qed.

(** X3.  While there is room a submission drops nothing; on a full store
    it drops exactly the last record, the oldest, and keeps the order of
    the others; both servers. *)
Theorem post_evicts_oldest :
  (forall body w, exists resp rec w',
     Railway.post_handler body w = (Return resp, w')
     /\ ((length (swarmDataStore w) < 50)%nat ->
           swarmDataStore w' = rec :: swarmDataStore w)
     /\ (length (swarmDataStore w) = 50%nat ->
           swarmDataStore w' = rec :: removelast (swarmDataStore w)))
  /\ (forall ua body w, exists resp rec w',
        ServerExample.post_handler ua body w = (Return resp, w')
        /\ ((length (swarmDataStore w) < 100)%nat ->
              swarmDataStore w' = rec :: swarmDataStore w)
        /\ (length (swarmDataStore w) = 100%nat ->
              swarmDataStore w' = rec :: removelast (swarmDataStore w))).
Proof.
  split.
  - intros body w.
    destruct (railway_post_run body w) as (resp & d & w1 & E & _ & L & _ & _).
    eexists resp, (stamp_in w1 d), _. split; [exact E|].
    destruct L as (S1 & _). rewrite <- S1.
    apply posted_store. unfold Railway.MAX_STORED_DATA. lia.
  - intros ua body w.
    destruct (example_post_run ua body w) as (resp & E & _).
    eexists resp, (stamp_in w body), _. split; [exact E|].
    apply posted_store. unfold ServerExample.MAX_STORED_DATA. lia.
Qed.



(** ** History, by kind of limit *)

(** Both history handlers, on any query: the Railway server cuts the
    limit to the size of the store first, which changes nothing. *)
Lemma history_run q w :
  exists h,
    Railway.history_handler q w = (Return h, w)
    /\ ServerExample.history_handler q w = (Return h, w)
    /\ h_total h = length (swarmDataStore w)
    /\ h_count h = length (h_data h)
    /\ h_data h =
         Array_slice 0 (or_default (parseInt (query_to_string q)) 10) (swarmDataStore w).
Proof.
  destruct (history_data_railway q w) as (h1 & E1 & T1 & C1 & D1).
  destruct (history_data_example q w) as (h2 & E2 & T2 & C2 & D2).
  set (limit := or_default (parseInt (query_to_string q)) 10) in *.
  assert (Hd : h_data h1 = h_data h2).
  { rewrite D1, D2. destruct (Z.lt_ge_cases limit 0) as [Hneg|Hpos].
    - now rewrite Z.min_l by lia.
    - rewrite !Array_slice_0 by lia.
      rewrite <- (firstn_min (Z.to_nat limit)), <- (firstn_min (Z.to_nat (Z.min _ _))).
      f_equal. lia. }
  assert (h1 = h2).
  { destruct h1, h2; simpl in *. congruence. }
  subst h2. exists h1. auto.
Qed.

(** X6.  On every query, also one that is no number, both history
    handlers return the same response and leave the store alone: [data] is
    a prefix of the store, [count] is its length, [total] the size of the
    store, and [count <= total]. *)
Theorem history_is_prefix (q : option jsstring) (w : World) :
  exists h n,
    Railway.history_handler q w = (Return h, w)
    /\ ServerExample.history_handler q w = (Return h, w)
    /\ h_data h = firstn n (swarmDataStore w)
    /\ h_count h = length (h_data h)
    /\ h_total h = length (swarmDataStore w)
    /\ (h_count h <= h_total h)%nat.
Proof.
  destruct (history_run q w) as (h & E1 & E2 & T & C & D).
  assert (Hn : exists n, h_data h = firstn n (swarmDataStore w)).
  { rewrite D. destruct (Z.lt_ge_cases (or_default (parseInt (query_to_string q)) 10) 0).
    - rewrite Array_slice_0_neg by assumption. eexists. reflexivity.
    - rewrite Array_slice_0 by lia. eexists. reflexivity. }
  destruct Hn as (n & Hn).
  exists h, n. split; [exact E1|]. split; [exact E2|].
  split; [exact Hn|]. split; [exact C|]. split; [exact T|].
  rewrite C, T, Hn, length_firstn. lia.
Qed.

(** [parseInt] of the text of a negative integer. *)
Lemma parseInt_negative n : n < 0 -> parseInt (int_to_string n) = Int n.
Proof.
  intros H. unfold int_to_string.
  destruct (n <? 0) eqn:E; [|apply Z.ltb_ge in E; lia]. clear E.
  pose proof (parseInt_digits (dec_digits (- n)) (dec_digits_nonempty _) (dec_digits_all _)) as P.
  rewrite dec_value_digits in P by lia.
  pose proof (dec_digits_all (- n)) as Hd.
  destruct (dec_digits (- n)) as [|c s] eqn:Es; [now apply dec_digits_nonempty in Es|].
  simpl in Hd. apply andb_true_iff in Hd. destruct Hd as [Hc Hs].
  unfold parseInt, trimStart in *. simpl drop_while in *.
  rewrite (digit_not_space _ Hc) in P. rewrite (read_sign_digit c _ Hc) in P.
  replace (is_space ch_minus) with false by reflexivity.
  cbn [read_sign]. replace (ch_minus =? ch_minus)%N with true by reflexivity.
  simpl apply_sign in *.
  destruct s as [|x s].
  - destruct (uint_of_codes [c]); [discriminate P|injection P as P; rewrite P; f_equal; lia..].
  - simpl in Hs. apply andb_true_iff in Hs. destruct Hs as [Hx _].
    rewrite (digit_not_x _ Hx), andb_false_r in *.
    destruct (uint_of_codes (c :: x :: s)); [discriminate P|injection P as P; rewrite P; f_equal; lia..].
Qed.

Lemma or_default_nonzero n : n <> 0 -> or_default (Int n) 10 = n.
Proof. destruct n; [congruence | reflexivity..]. Qed.

(** X7.  For [limit=n] with [n > 0] both history handlers return the
    first [n] records of the store, all of them when there are fewer. *)
Theorem history_first_n (n : Z) (w : World) :
  0 < n ->
  exists h,
    Railway.history_handler (Some (int_to_string n)) w = (Return h, w)
    /\ ServerExample.history_handler (Some (int_to_string n)) w = (Return h, w)
    /\ h_data h = firstn (Z.to_nat n) (swarmDataStore w)
    /\ h_count h = Nat.min (Z.to_nat n) (length (swarmDataStore w)).
Proof.
  intros Hn. destruct (history_run (Some (int_to_string n)) w) as (h & E1 & E2 & _ & C & D).
  exists h. split; [exact E1|]. split; [exact E2|].
  cbn [query_to_string] in D. rewrite parseInt_dec_digits in D by lia.
  rewrite or_default_nonzero in D by lia. rewrite Array_slice_0 in D by lia.
  split; [exact D|]. rewrite C, D. apply length_firstn.
Qed.

Lemma history_first_n_witness :
  let w := world0 [sample_record 1; sample_record 2; sample_record 3] in
  0 < 2
  /\ exists h,
       Railway.history_handler (Some (int_to_string 2)) w = (Return h, w)
       /\ ServerExample.history_handler (Some (int_to_string 2)) w = (Return h, w)
       /\ h_data h = firstn (Z.to_nat 2) (swarmDataStore w)
       /\ h_count h = Nat.min (Z.to_nat 2) (length (swarmDataStore w)).
Proof.
  intros w. split; [lia|]. apply (history_first_n 2 w). lia.
Defined.

(** X8.  When [limit] is missing, is 0 or does not start with a number,
    both history handlers return the first 10 records. *)
Theorem history_default_ten (q : option jsstring) (w : World) :
  parseInt (query_to_string q) = NaNi \/ parseInt (query_to_string q) = Int 0 ->
  exists h,
    Railway.history_handler q w = (Return h, w)
    /\ ServerExample.history_handler q w = (Return h, w)
    /\ h_data h = firstn 10 (swarmDataStore w)
    /\ h_count h = Nat.min 10 (length (swarmDataStore w)).
Proof.
  intros Hq. destruct (history_run q w) as (h & E1 & E2 & _ & C & D).
  exists h. split; [exact E1|]. split; [exact E2|].
  assert (Hd : or_default (parseInt (query_to_string q)) 10 = 10).
  { destruct Hq as [-> | ->]; reflexivity. }
  rewrite Hd, Array_slice_0 in D by lia.
  split; [exact D|]. rewrite C, D. apply length_firstn.
Qed.

Lemma history_default_ten_witness :
  let w := world0 [sample_record 1; sample_record 2; sample_record 3] in
  (parseInt (query_to_string None) = NaNi \/ parseInt (query_to_string None) = Int 0)
  /\ (parseInt (query_to_string (Some (jsstr "all"))) = NaNi
      \/ parseInt (query_to_string (Some (jsstr "all"))) = Int 0)
  /\ (exists h, Railway.history_handler None w = (Return h, w)
                /\ h_data h = swarmDataStore w)
  /\ (exists h, ServerExample.history_handler (Some (jsstr "all")) w = (Return h, w)
                /\ h_data h = swarmDataStore w).
Proof.
  intros w.
  assert (H1 : parseInt (query_to_string None) = NaNi
               \/ parseInt (query_to_string None) = Int 0) by (left; reflexivity).
  assert (H2 : parseInt (query_to_string (Some (jsstr "all"))) = NaNi
               \/ parseInt (query_to_string (Some (jsstr "all"))) = Int 0)
    by (left; reflexivity).
  split; [exact H1|]. split; [exact H2|]. split.
  - destruct (history_default_ten None w H1) as (h & E & _ & D & _).
    exists h. split; [exact E | exact D].
  - destruct (history_default_ten (Some (jsstr "all")) w H2) as (h & _ & E & D & _).
    exists h. split; [exact E | exact D].
Defined.

(** X9.  For [limit=n] with [n < 0] both history handlers leave out the
    last [-n] records and return the others, none when the store has no
    more than [-n]. *)
Theorem history_drops_last (n : Z) (w : World) :
  n < 0 ->
  exists h,
    Railway.history_handler (Some (int_to_string n)) w = (Return h, w)
    /\ ServerExample.history_handler (Some (int_to_string n)) w = (Return h, w)
    /\ h_data h = firstn (length (swarmDataStore w) - Z.to_nat (- n)) (swarmDataStore w)
    /\ h_count h = (length (swarmDataStore w) - Z.to_nat (- n))%nat.
Proof.
  intros Hn. destruct (history_run (Some (int_to_string n)) w) as (h & E1 & E2 & _ & C & D).
  exists h. split; [exact E1|]. split; [exact E2|].
  cbn [query_to_string] in D. rewrite parseInt_negative in D by lia.
  rewrite or_default_nonzero in D by lia. rewrite Array_slice_0_neg in D by lia.
  split; [exact D|]. rewrite C, D, length_firstn. lia.
Qed.

Lemma history_drops_last_witness :
  let w := world0 [sample_record 1; sample_record 2; sample_record 3] in
  -2 < 0
  /\ exists h,
       Railway.history_handler (Some (jsstr "-2")) w = (Return h, w)
       /\ h_data h = [sample_record 1].
Proof.
  intros w. split; [lia|].
  destruct (history_drops_last (-2) w) as (h & E & _ & D & _); [lia|].
  exists h. split; [exact E | exact D].
Defined.

(** ** The range of a color *)



(** ** The serializer followed by the parser *)















(** ** The standard handler and the handlers in sequence *)











(** ** The order of the store *)

Lemma Forall_firstn_of {A} (P : A -> Prop) n (l : list A) :
  Forall P l -> Forall P (firstn n l).
Proof.
  rewrite !Forall_forall. intros H x Hx. apply H. now apply In_firstn in Hx.
Qed.

Lemma newest_first_firstn n store : newest_first store -> newest_first (firstn n store).
Proof.
  revert n. induction store as [|d rest IH]; intros n H; [now destruct n|].
  destruct n as [|n]; [exact I|]. cbn [firstn newest_first].
  destruct H as ((t & Ht & Hrest) & Hn). split; [|now apply IH].
  exists t. split; [exact Ht|]. now apply Forall_firstn_of.
Qed.

Lemma not_after_le t t' d : t <= t' -> not_after t d -> not_after t' d.
Proof. intros Hle (s & Hs & H). exists s. split; [exact Hs | lia]. Qed.

Lemma later_in_order w w1 :
  later w w1 -> clock_monotone w -> in_order w -> clock_monotone w1 /\ in_order w1.
Proof.
  intros (S1 & _ & C1 & _ & N1) Hm (Hn & Hf). split.
  - unfold clock_monotone. rewrite C1. exact Hm.
  - unfold in_order. rewrite S1, C1. split; [exact Hn|].
    eapply Forall_impl; [|exact Hf]. intros d. apply not_after_le. now apply Hm.
Qed.

Lemma posted_in_order cap w d :
  clock_monotone w -> in_order w ->
  clock_monotone (posted cap w d) /\ in_order (posted cap w d).
Proof.
  intros Hm (Hn & Hf). split; [exact Hm|].
  unfold in_order. cbn [posted swarmDataStore clock_source clock_calls]. split.
  - apply newest_first_firstn. cbn [newest_first]. split; [|exact Hn].
    eexists. split; [reflexivity | exact Hf].
  - apply Forall_firstn_of. constructor.
    + eexists. split; [reflexivity|]. apply Hm. lia.
    + eapply Forall_impl; [|exact Hf]. intros x. apply not_after_le. apply Hm. lia.
Qed.

Section Order.
Context {B : Type}.
Variable post : B -> M PostResponse.
Hypothesis post_keeps_order :
  forall b w, clock_monotone w -> in_order w ->
    exists resp w', post b w = (Return resp, w') /\ clock_monotone w' /\ in_order w'.

Lemma post_each_in_order bodies w :
  clock_monotone w -> in_order w ->
  exists resps w',
    post_each post bodies w = (Return resps, w') /\ newest_first (swarmDataStore w').
Proof.
  revert w. induction bodies as [|b bodies IH]; intros w Hm Ho.
  - exists [], w. split; [reflexivity | apply Ho].
  - destruct (post_keeps_order b w Hm Ho) as (resp & w1 & E1 & Hm1 & Ho1).
    destruct (IH w1 Hm1 Ho1) as (resps & w2 & E2 & H2).
    exists (resp :: resps), w2. split; [|exact H2].
    simpl. unfold bind. rewrite E1. fold (@bind (list PostResponse)).
    unfold bind. rewrite E2. reflexivity.
Qed.
End Order.

Lemma railway_keeps_order b w :
  clock_monotone w -> in_order w ->
  exists resp w',
    Railway.post_handler b w = (Return resp, w') /\ clock_monotone w' /\ in_order w'.
Proof.
  intros Hm Ho.
  destruct (railway_post_run b w) as (resp & d & w1 & E & _ & L & _ & _).
  destruct (later_in_order w w1 L Hm Ho) as (Hm1 & Ho1).
  eexists resp, _. split; [exact E|]. now apply posted_in_order.
Qed.

Lemma example_keeps_order req w :
  clock_monotone w -> in_order w ->
  exists resp w',
    example_post req w = (Return resp, w') /\ clock_monotone w' /\ in_order w'.
Proof.
  intros Hm Ho. unfold example_post.
  destruct (example_post_run (fst req) (snd req) w) as (resp & E & _).
  eexists resp, _. split; [exact E|]. now apply posted_in_order.
Qed.

(** X16.  With a clock that never goes back, and from a store that is in
    order and not ahead of the clock, any run of submissions leaves the
    store ordered by server time, the newest record first; both servers. *)
Theorem store_newest_first :
  (forall bodies w, clock_monotone w -> in_order w ->
     exists resps w',
       post_each Railway.post_handler bodies w = (Return resps, w')
       /\ newest_first (swarmDataStore w'))
  /\ (forall requests w, clock_monotone w -> in_order w ->
        exists resps w',
          post_each example_post requests w = (Return resps, w')
          /\ newest_first (swarmDataStore w')).
Proof.
  split.
  - intros bodies w. apply post_each_in_order. exact railway_keeps_order.
  - intros requests w. apply post_each_in_order. exact example_keeps_order.
Qed.

Lemma world0_in_order : clock_monotone (world0 []) /\ in_order (world0 []).
Proof.
  split.
  - intros i j H. simpl. lia.
  - split; [exact I | constructor].
Qed.

Lemma store_newest_first_witness :
  let bodies := [Railway.TextBody (jsstr "2 * (10.0, 1.0, 2.0, 0.5, 0.5, 0.5, 0.1, 0.9)");
                 Railway.JsonBody (sample_record 3)] in
  clock_monotone (world0 []) /\ in_order (world0 [])
  /\ exists resps w',
       post_each Railway.post_handler bodies (world0 []) = (Return resps, w')
       /\ newest_first (swarmDataStore w').
Proof.
  intros bodies. split; [apply world0_in_order|]. split; [apply world0_in_order|].
  apply (proj1 store_newest_first bodies (world0 [])); apply world0_in_order.
Defined.

(** ** A text submitted and sent back *)








(** An example: the text written for [signed_payload]. *)
Example signed_payload_text :
  Railway.convertToStandardFormat signed_payload
  = jsstr "3 * (0.33, 0.67, -0.33, 0.13, -0.13, 0.00, -0.00, 12345.00)"
    ++ ch_nl :: jsstr "-4 * (10.00, 1.00, 2.00, 0.50, 0.50, 0.50, 0.10, 0.90)".
Proof. vm_compute. reflexivity. Qed.

